(** * zoom_meeting_summary.py: token cache, paginated listing, attendance summary

    A shallow embedding of [src/zoom_meeting_summary.py] and the properties
    its specification states about it.

    Conventions of the embedding.
    - A Python call that may raise returns a [result]; a [while True] loop
      takes a fuel argument and returns [None] when the fuel runs out.
    - Every [datetime.now()] of the source is an explicit argument.
    - The network is a script: the outcome of the n-th HTTP attempt of a call.
    - Library functions whose text is not part of the program
      ([dateutil.parser.parse], [strftime], [isoformat], [fromisoformat])
      are Section variables; concrete ISO-8601 instances are given for the
      examples.
    - [timedelta.total_seconds() / 60] is computed by Python in binary64; the
      embedding uses exact rationals.  The two agree on the differences that
      [binary64_exact] describes, and the theorems about the value of a
      duration are stated for those. *)

From Stdlib Require Import ZArith List String Ascii QArith Lia Bool DecimalString.
Import ListNotations.
Open Scope Z_scope.
Open Scope string_scope.

(** ** Exceptions and results *)

Inductive exn : Type :=
| Exception (msg : string)
| UnboundLocalError (var : string)
| KeyError (key : string)
| TypeError
| ValueError
| ParserError
| JSONDecodeError
| PermissionError
| OverflowError
| HTTPError (status : Z)
| ConnectionError
| RetryError.

(** The subclasses of [requests.exceptions.RequestException]. *)
Definition is_RequestException (e : exn) : bool :=
  match e with
  | HTTPError _ | ConnectionError | RetryError => true
  | _ => false
  end.

Inductive result (A : Type) : Type :=
| Ok (a : A)
| Raise (e : exn).
Arguments Ok {A} a.
Arguments Raise {A} e.

Definition bind {A B : Type} (c : result A) (k : A -> result B) : result B :=
  match c with
  | Ok a => k a
  | Raise e => Raise e
  end.

Notation "x <- c ;; k" := (bind c (fun x => k))
  (at level 100, c at next level, right associativity).

Definition from_option {A : Type} (e : exn) (o : option A) : result A :=
  match o with
  | Some a => Ok a
  | None => Raise e
  end.

(** [try: body except requests.exceptions.RequestException: handler]. *)
Definition except_RequestException {A : Type} (body : result A)
    (handler : result A) : result A :=
  match body with
  | Ok a => Ok a
  | Raise e => if is_RequestException e then handler else Raise e
  end.

(** ** JSON values, as [json.load] and [response.json()] return them *)

#[local] Set Warnings "-register-all".
Inductive json : Type :=
| JNull
| JBool (b : bool)
| JNum (z : Z)
| JStr (s : string)
| JArr (l : list json)
| JObj (kv : list (string * json)).

Fixpoint assoc (k : string) (kv : list (string * json)) : option json :=
  match kv with
  | [] => None
  | (k', v) :: rest => if String.eqb k k' then Some v else assoc k rest
  end.

(** [d[k]] for a string key [k]. *)
Definition getitem (d : json) (k : string) : result json :=
  match d with
  | JObj kv => from_option (KeyError k) (assoc k kv)
  | _ => Raise TypeError
  end.

(** Python truth value of a JSON value ([None] is [JNull]). *)
Definition truthy (v : json) : bool :=
  match v with
  | JNull => false
  | JBool b => b
  | JNum z => negb (Z.eqb z 0)
  | JStr s => negb (String.eqb s "")
  | JArr l => match l with [] => false | _ => true end
  | JObj kv => match kv with [] => false | _ => true end
  end.

Definition truthy_str (s : string) : bool := negb (String.eqb s "").

(** [str(n)] for an integer. *)
Definition str (n : Z) : string := NilZero.string_of_int (Z.to_int n).

(** ** Time *)

(** A [datetime]: the reading of its wall clock in microseconds since
    1970-01-01T00:00:00 and, when it is zone-aware, the UTC offset of its
    zone in microseconds ([None]: a naive datetime). *)
Record datetime : Type := { wall : Z; utcoffset : option Z }.

Definition naive (w : Z) : datetime := {| wall := w; utcoffset := None |}.

(** [datetime.min] and [datetime.max] as readings of the wall clock:
    0001-01-01T00:00:00 and 9999-12-31T23:59:59.999999. *)
Definition MINWALL : Z := -62135596800000000.
Definition MAXWALL : Z := 253402300799999999.

Definition representable (w : Z) : bool := Z.leb MINWALL w && Z.leb w MAXWALL.

(** A [timedelta], in microseconds. *)
Definition timedelta : Type := Z.

(** [timedelta.min] is -999999999 days and [timedelta.max] is 999999999
    days 23:59:59.999999; the constructor raises [OverflowError] outside. *)
Definition timedelta_fits (us : Z) : bool :=
  Z.leb (-86399999913600000000) us && Z.ltb us 86400000000000000000.

Definition timedelta_of (us : Z) : result timedelta :=
  if timedelta_fits us then Ok us else Raise OverflowError.

(** [timedelta(minutes=n)] and [timedelta(seconds=n)] for an integer [n]. *)
Definition timedelta_minutes (minutes : Z) : result timedelta :=
  timedelta_of (minutes * 60000000).

Definition timedelta_seconds (seconds : Z) : result timedelta :=
  timedelta_of (seconds * 1000000).

(** [a - b]: two naive datetimes are subtracted as they read, two aware
    ones after both are taken to UTC, and a naive and an aware one raise
    [TypeError]. *)
Definition datetime_sub (a b : datetime) : result timedelta :=
  match utcoffset a, utcoffset b with
  | None, None => Ok (wall a - wall b)
  | Some oa, Some ob => Ok ((wall a - oa) - (wall b - ob))
  | _, _ => Raise TypeError
  end.

(** [a > b], with the same three cases. *)
Definition datetime_gt (a b : datetime) : result bool :=
  match utcoffset a, utcoffset b with
  | None, None => Ok (Z.ltb (wall b) (wall a))
  | Some oa, Some ob => Ok (Z.ltb (wall b - ob) (wall a - oa))
  | _, _ => Raise TypeError
  end.

(** [a + d]: the wall clock moves, the zone stays; [OverflowError] when the
    result leaves the years 1 to 9999. *)
Definition datetime_add (a : datetime) (d : timedelta) : result datetime :=
  if representable (wall a + d)
  then Ok {| wall := wall a + d; utcoffset := utcoffset a |}
  else Raise OverflowError.

(** [start + timedelta(minutes=n)]. *)
Definition plus_minutes (start : datetime) (minutes : Z) : result datetime :=
  delta <- timedelta_minutes minutes ;;
  datetime_add start delta.

Definition total_seconds (d : timedelta) : Q := (inject_Z d / inject_Z 1000000)%Q.

(** [int(x)] on a number: truncation toward zero. *)
Definition int (x : Q) : Z := Z.quot (Qnum x) (Zpos (Qden x)).


(** ** Records fetched from the provider and records of the report *)

Record Meeting : Type :=
  { m_id : Z; m_topic : string; m_start_time : string; m_duration : Z }.

(** [p_email = None] is a record without the ["email"] key. *)
Record Participant : Type :=
  { p_name : string; p_email : option string;
    p_join_time : string; p_leave_time : string }.

Record ParticipantSummary : Type :=
  { s_name : string; s_email : string; s_duration : string }.

Record MeetingSummary : Type :=
  { topic : string; start_time : string; end_time : string;
    scheduled_duration : string; participants : list ParticipantSummary }.

(** ** HTTP *)

Record Response (B : Type) : Type := { status_code : Z; body : B }.
Arguments status_code {B} r.
Arguments body {B} r.

(** One HTTP attempt on the wire: the connection fails, or a response
    comes back.  A response is its status and its decoded body: answers that
    carry a [Location] or a [Retry-After] header, which [requests] and the
    retry policy act upon, are not among those a wire describes. *)
Inductive attempt (B : Type) : Type :=
| ConnectFail
| Reply (r : Response B).
Arguments ConnectFail {B}.
Arguments Reply {B} r.

(** The outcome of the n-th attempt of a call. *)
Definition wire (B : Type) : Type := nat -> attempt B.

(** [response.raise_for_status()] raises for 4xx and 5xx. *)
Definition is_error_status (s : Z) : bool := Z.leb 400 s && Z.ltb s 600.

Definition raise_for_status {B : Type} (r : Response B) : result unit :=
  if is_error_status (status_code r) then Raise (HTTPError (status_code r))
  else Ok tt.

(** [log_response(response)] only logs, but it reads the local variable
    [response], which is unbound when no assignment to it has completed. *)
Definition log_response {B : Type} (response : option (Response B)) : result unit :=
  match response with
  | Some _ => Ok tt
  | None => Raise (UnboundLocalError "response")
  end.

(** [requests.get(...)]: the module-level function, which opens a fresh
    default session; the adapter of that session does not retry.  (An answer
    that redirects, which [requests] would follow with a further request, is
    not among those a wire describes.) *)
Definition requests_get {B : Type} (w : wire B) (n : nat) : result (Response B) :=
  match w n with
  | ConnectFail => Raise ConnectionError
  | Reply r => Ok r
  end.

Inductive http_method : Type := GET | POST.

(** [Retry(total=5, backoff_factor=0.1, status_forcelist=[500, 502, 503, 504])]. *)
Record Retry : Type :=
  { total : nat; backoff_factor : Q; status_forcelist : list Z }.

Definition retries : Retry :=
  {| total := 5; backoff_factor := 1 # 10;
     status_forcelist := [500; 502; 503; 504] |}.

(** [Retry]'s default [allowed_methods] are the idempotent ones. *)
Definition allowed_method (m : http_method) : bool :=
  match m with
  | GET => true
  | POST => false
  end.

(** [Retry.is_retry] for an answer without a [Retry-After] header: the
    method is one the policy allows and the status is in its force list. *)
Definition is_retry (cfg : Retry) (m : http_method) (status : Z) : bool :=
  allowed_method m && existsb (Z.eqb status) (status_forcelist cfg).

(** The adapter mounted on [session]: an attempt is repeated while the policy
    asks for it and retries are left.  Returns the outcome and the number of
    attempts made. *)
Fixpoint urlopen {B : Type} (cfg : Retry) (m : http_method) (w : wire B)
    (left : nat) (n : nat) : result (Response B) * nat :=
  match w n with
  | ConnectFail =>
      match left with
      | O => (Raise ConnectionError, S n)
      | S left' => urlopen cfg m w left' (S n)
      end
  | Reply r =>
      if is_retry cfg m (status_code r) then
        match left with
        | O => (Raise RetryError, S n)
        | S left' => urlopen cfg m w left' (S n)
        end
      else (Ok r, S n)
  end.

(** [session.get(...)] and [session.post(...)]. *)
Definition session_request {B : Type} (m : http_method) (w : wire B)
  : result (Response B) * nat :=
  urlopen retries m w (total retries) 0.

(** An attempt after which the adapter of [session] tries again (while
    retries are left): a connection failure, or a response whose status the
    policy lists, for a method it allows. *)
Definition retried {B : Type} (m : http_method) (a : attempt B) : bool :=
  match a with
  | ConnectFail => true
  | Reply r => is_retry retries m (status_code r)
  end.

(** The statuses the retry policy acts upon when the answer carries a
    [Retry-After] header. *)
Definition RETRY_AFTER_STATUS_CODES : list Z := [413; 429; 503].

(** The statuses an answer of which the adapter hands back to the caller
    whatever headers it carries: a success or an error status that the
    policy does not list and that no [Retry-After] header makes it retry.
    A redirect (3xx) is not among them. *)
Definition handed_back (cfg : Retry) (m : http_method) (status : Z) : bool :=
  ((Z.leb 200 status && Z.ltb status 300) || is_error_status status)
  && negb (is_retry cfg m status)
  && negb (existsb (Z.eqb status) RETRY_AFTER_STATUS_CODES).

(** ** Token cache ([auth_cache.json]) *)

(** What [load_cached_token] can find at [AUTH_CACHE_FILE]: no file, a file
    that cannot be opened for reading, a file whose text [json.load] rejects,
    or a file whose text [json.load] decodes to [j]. *)
Inductive cache_file : Type :=
| Absent
| Unreadable
| Invalid
| Parsed (j : json).

(** Effects of the authenticator, in order of occurrence. *)
Inductive event : Type :=
| HttpCall (m : http_method) (attempts : nat)
| CacheWrite (f : cache_file).


Section TokenCache.

(** [isoformat] of the naive datetime that reads [t] microseconds, and
    [datetime.fromisoformat]. *)
Variable isoformat : Z -> string.
Variable fromisoformat : string -> option datetime.

(** [fromisoformat] reads back what [isoformat] wrote for [t]. *)
Definition reads_back (t : Z) : Prop := fromisoformat (isoformat t) = Some (naive t).

(** [datetime.fromisoformat(v)]: a [TypeError] unless [v] is a string, a
    [ValueError] unless the string is an ISO timestamp. *)
Definition datetime_fromisoformat (v : json) : result datetime :=
  match v with
  | JStr s => from_option ValueError (fromisoformat s)
  | _ => Raise TypeError
  end.

(** [now] is the reading of [datetime.now()], a naive datetime. *)
Definition load_cached_token (now : Z) (f : cache_file) : result json :=
  match f with
  | Absent => Ok JNull
  | Unreadable => Raise PermissionError
  | Invalid => Raise JSONDecodeError
  | Parsed cache =>
      e <- getitem cache "expiration" ;;
      expiration <- datetime_fromisoformat e ;;
      valid <- datetime_gt expiration (naive now) ;;
      if valid then getitem cache "access_token" else Ok JNull
  end.

(** [expires_in] is a whole number of seconds.  The expiry is computed
    before the file is opened: when it raises, nothing is written; otherwise
    the file is overwritten whatever it held. *)
Definition save_token_to_cache (now : Z) (access_token : json) (expires_in : Z)
    (f : cache_file) : result cache_file :=
  delta <- timedelta_seconds expires_in ;;
  expiration <- datetime_add (naive now) delta ;;
  Ok (Parsed (JObj [("access_token", access_token);
                    ("expiration", JStr (isoformat (wall expiration)))])).

(** [timedelta(seconds=v)] accepts a number ([bool] is a subclass of [int]). *)
Definition seconds_of (v : json) : result Z :=
  match v with
  | JNum z => Ok z
  | JBool b => Ok (if b then 1 else 0)
  | _ => Raise TypeError
  end.

(** [get_access_token()].  [now_load] and [now_save] are the two clock
    readings, [w] the token endpoint.  Returns the result, the cache file
    afterwards and the effects performed. *)
Definition get_access_token (now_load now_save : Z) (w : wire json)
    (f : cache_file) : result json * cache_file * list event :=
  match load_cached_token now_load f with
  | Raise e => (Raise e, f, [])
  | Ok cached_token =>
      if truthy cached_token then (Ok cached_token, f, [])
      else
        let handler (response : option (Response json))
          : result (json * cache_file) :=
          (_ <- log_response response ;;
           Raise (Exception "Failed to obtain access token")) in
        let '(sent, attempts) := session_request POST w in
        let fetched :=
          match sent with
          | Raise e => except_RequestException (Raise e) (handler None)
          | Ok response =>
              except_RequestException
                (_ <- raise_for_status response ;;
                 _ <- log_response (Some response) ;;
                 let token_data := body response in
                 access_token <- getitem token_data "access_token" ;;
                 expires_in <- getitem token_data "expires_in" ;;
                 seconds <- seconds_of expires_in ;;
                 f' <- save_token_to_cache now_save access_token seconds f ;;
                 Ok (access_token, f'))
                (handler (Some response))
          end in
        match fetched with
        | Raise e => (Raise e, f, [HttpCall POST attempts])
        | Ok (access_token, f') =>
            (Ok access_token, f', [HttpCall POST attempts; CacheWrite f'])
        end
  end.

End TokenCache.

(** [get_user_id(access_token)], over [session.get].  Returns the result
    and the number of attempts made. *)
Definition get_user_id (w : wire json) : result json * nat :=
  let handler (response : option (Response json)) : result json :=
    (_ <- log_response response ;;
     Raise (Exception "Failed to obtain user ID")) in
  let '(sent, attempts) := session_request GET w in
  match sent with
  | Raise e => (except_RequestException (Raise e) (handler None), attempts)
  | Ok response =>
      (except_RequestException
         (_ <- raise_for_status response ;;
          _ <- log_response (Some response) ;;
          getitem (body response) "id")
         (handler (Some response)),
       attempts)
  end.

(** ** Paginated listing *)

Record Page (I : Type) : Type :=
  { items : list I; next_page_token : option string }.
Arguments items {I} p.
Arguments next_page_token {I} p.

(** How the [try] block around the [while True] loop is left: by [break],
    with the accumulated list, or by an exception, with the binding of the
    local [response] at that point. *)
Inductive loop_exit (I : Type) : Type :=
| Completed (acc : list I)
| Failed (e : exn) (response : option (Response (Page I))).
Arguments Completed {I} acc.
Arguments Failed {I} e response.

(** The request log: the [next_page_token] parameter of each request sent. *)
Definition request_log : Type := list (option string).

(** A [next_page_token] parameter that is present and not empty. *)
Definition is_cursor (c : option string) : Prop :=
  exists t, c = Some t /\ t <> "".

(** The loop of [get_meetings] and of [get_meeting_participants] (they
    differ in the key of the item list only).  [n] counts the requests already
    sent, [token] is [params.get("next_page_token")]. *)
Fixpoint page_loop {I : Type} (fuel : nat) (w : wire (Page I)) (n : nat)
    (token : option string) (acc : list I)
    (response : option (Response (Page I))) (sent : request_log)
  : option (loop_exit I * request_log) :=
  match fuel with
  | O => None
  | S fuel' =>
      let sent := (sent ++ [token])%list in
      match requests_get w n with
      | Raise e => Some (Failed e response, sent)
      | Ok r =>
          let response := Some r in
          match raise_for_status r with
          | Raise e => Some (Failed e response, sent)
          | Ok _ =>
              let data := body r in
              let acc := (acc ++ items data)%list in
              match next_page_token data with
              | Some t =>
                  if truthy_str t
                  then page_loop fuel' w (S n) (Some t) acc response sent
                  else Some (Completed acc, sent)
              | None => Some (Completed acc, sent)
              end
          end
      end
  end.

(** A page asks for a further request when it carries a non-empty
    [next_page_token]. *)
Definition has_cursor {I : Type} (p : Page I) : bool :=
  match next_page_token p with
  | Some t => truthy_str t
  | None => false
  end.

(** The page the n-th request is answered with, when it is answered with a
    status that [raise_for_status] accepts. *)
Definition page_at {I : Type} (w : wire (Page I)) (n : nat) : option (Page I) :=
  match w n with
  | Reply r => if is_error_status (status_code r) then None else Some (body r)
  | ConnectFail => None
  end.

Definition response_at {I : Type} (w : wire (Page I)) (n : nat)
  : option (Response (Page I)) :=
  match w n with
  | Reply r => Some r
  | ConnectFail => None
  end.

(** [w] answers the requests [n], [n+1], ... with the pages [ps]. *)
Definition serves {I : Type} (w : wire (Page I)) (n : nat) (ps : list (Page I)) : Prop :=
  forall i p, nth_error ps i = Some p -> page_at w (n + i) = Some p.

(** The wire that answers with the pages [ps] in turn, each with status 200,
    and fails to connect afterwards. *)
Definition wire_of_pages {I : Type} (ps : list (Page I)) : wire (Page I) :=
  fun n => match nth_error ps n with
           | Some p => Reply {| status_code := 200; body := p |}
           | None => ConnectFail
           end.

(** The wire whose first [N] pages are empty and carry the cursor
    ["next"], and whose later pages are empty and carry none. *)
Definition cursor_pages {I : Type} (N : nat) : wire (Page I) :=
  fun n => Reply {| status_code := 200;
                    body := {| items := [];
                               next_page_token :=
                                 if Nat.ltb n N then Some "next" else None |} |}.

(** [get_meetings]: on a [RequestException] the handler logs the response
    and raises. *)
Definition get_meetings (fuel : nat) (w : wire (Page Meeting))
  : option (result (list Meeting) * request_log) :=
  match page_loop fuel w 0 None [] None [] with
  | None => None
  | Some (Completed meetings, sent) => Some (Ok meetings, sent)
  | Some (Failed e response, sent) =>
      Some (except_RequestException (Raise e)
              (_ <- log_response response ;;
               Raise (Exception "Failed to fetch meetings")), sent)
  end.

(** [get_meeting_participants]: on a [RequestException] the handler logs the
    response and returns the empty list. *)
Definition get_meeting_participants (fuel : nat) (w : wire (Page Participant))
  : option (result (list Participant) * request_log) :=
  match page_loop fuel w 0 None [] None [] with
  | None => None
  | Some (Completed participants, sent) => Some (Ok participants, sent)
  | Some (Failed e response, sent) =>
      Some (except_RequestException (Raise e)
              (_ <- log_response response ;; Ok []), sent)
  end.

(** ** Summarizer *)

Section Summarizer.

(** [dateutil.parser.parse] and [strftime("%Y-%m-%d %H:%M")]. *)
Variable parse : string -> option datetime.
Variable strftime : datetime -> string.

Definition parser_parse (s : string) : result datetime :=
  from_option ParserError (parse s).

Definition calculate_participant_duration (join_time leave_time : string)
  : result Z :=
  join <- parser_parse join_time ;;
  leave <- parser_parse leave_time ;;
  duration <- datetime_sub leave join ;;
  Ok (int (total_seconds duration / inject_Z 60)%Q).

(** [participant.get("email", "N/A")]. *)
Definition get_email (participant : Participant) : string :=
  match p_email participant with
  | Some e => e
  | None => "N/A"
  end.

(** The body of the inner [for] loop: the summary appended for one
    participant. *)
Definition summarize_participant (participant : Participant)
  : result ParticipantSummary :=
  duration <- calculate_participant_duration
                (p_join_time participant) (p_leave_time participant) ;;
  Ok {| s_name := p_name participant;
        s_email := get_email participant;
        s_duration := str duration ++ " minutes" |}.

(** [for participant in participants: ... participant_summaries.append(...)]. *)
Fixpoint participant_loop (todo : list Participant)
    (participant_summaries : list ParticipantSummary)
  : result (list ParticipantSummary) :=
  match todo with
  | [] => Ok participant_summaries
  | participant :: rest =>
      s <- summarize_participant participant ;;
      participant_loop rest (participant_summaries ++ [s])%list
  end.

(** The participant listing of each meeting, by meeting id. *)
Variable listing : Z -> wire (Page Participant).

(** The body of the outer [for] loop.  [None]: the participant listing
    does not return within [fuel] requests. *)
Definition summarize_meeting (fuel : nat) (meeting : Meeting)
  : option (result MeetingSummary) :=
  match parser_parse (m_start_time meeting) with
  | Raise e => Some (Raise e)
  | Ok start =>
      let scheduled := m_duration meeting in
      match plus_minutes start scheduled with
      | Raise e => Some (Raise e)
      | Ok finish =>
          match get_meeting_participants fuel (listing (m_id meeting)) with
          | None => None
          | Some (Raise e, _) => Some (Raise e)
          | Some (Ok ps, _) =>
              Some (participant_summaries <- participant_loop ps [] ;;
                    Ok {| topic := m_topic meeting;
                          start_time := strftime start;
                          end_time := strftime finish;
                          scheduled_duration := str scheduled ++ " minutes";
                          participants := participant_summaries |})
          end
      end
  end.

(** [for meeting in meetings: ... summary.append(...)]. *)
Fixpoint meeting_loop (fuel : nat) (todo : list Meeting)
    (summary : list MeetingSummary) : option (result (list MeetingSummary)) :=
  match todo with
  | [] => Some (Ok summary)
  | meeting :: rest =>
      match summarize_meeting fuel meeting with
      | None => None
      | Some (Raise e) => Some (Raise e)
      | Some (Ok s) => meeting_loop fuel rest (summary ++ [s])%list
      end
  end.

Definition summarize_meetings (fuel : nat) (meetings : list Meeting)
  : option (result (list MeetingSummary)) :=
  meeting_loop fuel meetings [].



End Summarizer.

(** ** The program *)

(** What the provider answers: the token endpoint, the identity endpoint,
    the meeting listing of a user and the participant listing of a meeting. *)
Record provider : Type :=
  { oauth_token : wire json;
    users_me : wire json;
    user_meetings : json -> wire (Page Meeting);
    meeting_participants : Z -> wire (Page Participant) }.

(** What [main] writes to the console at the end: the report, or the
    exception it caught. *)
Inductive console : Type :=
| Report (summary : list MeetingSummary)
| ErrorOccurred (e : exn).

Section Program.

Variable isoformat : Z -> string.
Variable fromisoformat : string -> option datetime.
Variable parse : string -> option datetime.
Variable strftime : datetime -> string.

Definition main (fuel : nat) (now_load now_save : Z) (srv : provider)
    (f : cache_file) : option (console * cache_file) :=
  let '(token, f', _) :=
    get_access_token isoformat fromisoformat now_load now_save
      (oauth_token srv) f in
  match token with
  | Raise e => Some (ErrorOccurred e, f')
  | Ok access_token =>
      match get_user_id (users_me srv) with
      | (Raise e, _) => Some (ErrorOccurred e, f')
      | (Ok user_id, _) =>
          match get_meetings fuel (user_meetings srv user_id) with
          | None => None
          | Some (Raise e, _) => Some (ErrorOccurred e, f')
          | Some (Ok meetings, _) =>
              match summarize_meetings parse strftime
                      (meeting_participants srv) fuel meetings with
              | None => None
              | Some (Raise e) => Some (ErrorOccurred e, f')
              | Some (Ok summary) => Some (Report summary, f')
              end
          end
      end
  end.

End Program.

(** ** ISO-8601 instances of the library functions *)

Module Iso8601.

(** Days since 1970-01-01 of a date of the proleptic Gregorian calendar. *)
Definition days_from_civil (y m d : Z) : Z :=
  let y' := if Z.leb m 2 then y - 1 else y in
  let era := y' / 400 in
  let yoe := y' - era * 400 in
  let mp := (m + 9) mod 12 in
  let doy := (153 * mp + 2) / 5 + d - 1 in
  let doe := yoe * 365 + yoe / 4 - yoe / 100 + doy in
  era * 146097 + doe - 719468.

Definition civil_from_days (days : Z) : Z * Z * Z :=
  let z := days + 719468 in
  let era := z / 146097 in
  let doe := z - era * 146097 in
  let yoe := (doe - doe / 1460 + doe / 36524 - doe / 146096) / 365 in
  let doy := doe - (365 * yoe + yoe / 4 - yoe / 100) in
  let mp := (5 * doy + 2) / 153 in
  let d := doy - (153 * mp + 2) / 5 + 1 in
  let m := if Z.ltb mp 10 then mp + 3 else mp - 9 in
  let y := yoe + era * 400 in
  (if Z.leb m 2 then y + 1 else y, m, d).

Definition is_leap (y : Z) : bool :=
  Z.eqb (y mod 4) 0 && (negb (Z.eqb (y mod 100) 0) || Z.eqb (y mod 400) 0).

Definition days_in_month (y m : Z) : Z :=
  if Z.eqb m 2 then (if is_leap y then 29 else 28)
  else if Z.eqb m 4 || Z.eqb m 6 || Z.eqb m 9 || Z.eqb m 11 then 30
  else 31.

Definition digit (c : ascii) : option Z :=
  let n := Z.of_N (N_of_ascii c) in
  if Z.leb 48 n && Z.leb n 57 then Some (n - 48) else None.

Fixpoint digits (s : string) (acc : Z) : option Z :=
  match s with
  | EmptyString => Some acc
  | String c rest =>
      match digit c with
      | Some d => digits rest (10 * acc + d)
      | None => None
      end
  end.

(** The number written by the [len] digits of [s] from position [pos]. *)
Definition field (s : string) (pos len : nat) : option Z :=
  let t := substring pos len s in
  if Nat.eqb (String.length t) len then digits t 0 else None.

Definition char_at (s : string) (pos : nat) (c : string) : bool :=
  String.eqb (substring pos 1 s) c.

(** [n] in decimal on at least [width] digits. *)
Fixpoint zeros (k : nat) : string :=
  match k with
  | O => ""
  | S k' => "0" ++ zeros k'
  end.

Definition pad (width : nat) (n : Z) : string :=
  let t := str n in
  zeros (width - String.length t) ++ t.

(** Seconds since 1970-01-01T00:00:00 of a valid date and time of day. *)
Definition wall_seconds (y mo d h mi sec : Z) : option Z :=
  if Z.leb 1 y && Z.leb y 9999 && Z.leb 1 mo && Z.leb mo 12
     && Z.leb 1 d && Z.leb d (days_in_month y mo)
     && Z.ltb h 24 && Z.ltb mi 60 && Z.ltb sec 60
  then Some (days_from_civil y mo d * 86400 + h * 3600 + mi * 60 + sec)
  else None.

(** [YYYY-MM-DDTHH:MM:SS] at the head of [s]. *)
Definition date_time (s : string) : option Z :=
  if char_at s 4 "-" && char_at s 7 "-" && char_at s 10 "T"
     && char_at s 13 ":" && char_at s 16 ":"
  then
    match field s 0 4, field s 5 2, field s 8 2,
          field s 11 2, field s 14 2, field s 17 2 with
    | Some y, Some mo, Some d, Some h, Some mi, Some sec =>
        wall_seconds y mo d h mi sec
    | _, _, _, _, _, _ => None
    end
  else None.

(** The digits at the head of [s], and what follows them. *)
Fixpoint leading_digits (s : string) : string * string :=
  match s with
  | EmptyString => (EmptyString, EmptyString)
  | String c rest =>
      match digit c with
      | Some _ => let '(ds, t) := leading_digits rest in (String c ds, t)
      | None => (EmptyString, s)
      end
  end.

(** A fraction of a second at the head of [t], [.] and one to six digits,
    in microseconds, and what follows it. *)
Definition fraction (t : string) : option (Z * string) :=
  if char_at t 0 "." then
    let '(ds, rest) := leading_digits (substring 1 (String.length t - 1) t) in
    let n := String.length ds in
    if Nat.leb 1 n && Nat.leb n 6 then
      match digits ds 0 with
      | Some v => Some (v * 10 ^ Z.of_nat (6 - n), rest)
      | None => None
      end
    else None
  else Some (0, t).

(** The zone designator [t]: none (a naive datetime), [Z], [+HH:MM] or
    [-HH:MM]; in microseconds. *)
Definition zone (t : string) : option (option Z) :=
  if String.eqb t "" then Some None
  else if String.eqb t "Z" then Some (Some 0)
  else if Nat.eqb (String.length t) 6 && char_at t 3 ":" then
    match field t 1 2, field t 4 2 with
    | Some h, Some mi =>
        if Z.ltb h 24 && Z.ltb mi 60 then
          if char_at t 0 "+" then Some (Some ((h * 3600 + mi * 60) * 1000000))
          else if char_at t 0 "-" then Some (Some (- ((h * 3600 + mi * 60) * 1000000)))
          else None
        else None
    | _, _ => None
    end
  else None.

(** [YYYY-MM-DDTHH:MM:SS], an optional fraction and an optional zone. *)
Definition parse (s : string) : option datetime :=
  match date_time s with
  | None => None
  | Some w =>
      match fraction (substring 19 (String.length s - 19) s) with
      | None => None
      | Some (us, t) =>
          match zone t with
          | Some z => Some {| wall := w * 1000000 + us; utcoffset := z |}
          | None => None
          end
      end
  end.

(** [strftime("%Y-%m-%d %H:%M")]. *)
Definition strftime (t : datetime) : string :=
  let secs := wall t / 1000000 in
  let '(y, mo, d) := civil_from_days (secs / 86400) in
  let sod := secs mod 86400 in
  pad 4 y ++ "-" ++ pad 2 mo ++ "-" ++ pad 2 d ++ " "
    ++ pad 2 (sod / 3600) ++ ":" ++ pad 2 (sod mod 3600 / 60).

(** [isoformat()] of a naive datetime given in microseconds. *)
Definition isoformat (t : Z) : string :=
  let secs := t / 1000000 in
  let us := t mod 1000000 in
  let '(y, mo, d) := civil_from_days (secs / 86400) in
  let sod := secs mod 86400 in
  pad 4 y ++ "-" ++ pad 2 mo ++ "-" ++ pad 2 d ++ "T"
    ++ pad 2 (sod / 3600) ++ ":" ++ pad 2 (sod mod 3600 / 60) ++ ":"
    ++ pad 2 (sod mod 60)
    ++ (if Z.eqb us 0 then "" else "." ++ pad 6 us).

(** [fromisoformat]: what [isoformat] writes, with or without an offset. *)
Definition fromisoformat (s : string) : option datetime := parse s.

End Iso8601.

(** ** Sample data for the examples *)

Module Sample.

Definition alice : Participant :=
  {| p_name := "Alice"; p_email := Some "alice@example.com";
     p_join_time := "2024-01-01T10:00:00Z"; p_leave_time := "2024-01-01T10:45:30Z" |}.

Definition bob : Participant :=
  {| p_name := "Bob"; p_email := None;
     p_join_time := "2024-01-01T10:05:00Z"; p_leave_time := "2024-01-01T10:30:00Z" |}.

Definition carol : Participant :=
  {| p_name := "Carol"; p_email := Some "";
     p_join_time := "2024-01-02T16:00:10+02:00"; p_leave_time := "2024-01-02T14:59:59Z" |}.

Definition standup : Meeting :=
  {| m_id := 101; m_topic := "Standup";
     m_start_time := "2024-01-01T10:00:00Z"; m_duration := 45 |}.

Definition review : Meeting :=
  {| m_id := 102; m_topic := "Review";
     m_start_time := "2024-01-02T16:00:00+02:00"; m_duration := 60 |}.

Definition retro : Meeting :=
  {| m_id := 103; m_topic := "Retro";
     m_start_time := "2024-01-03T23:30:00Z"; m_duration := 90 |}.

Definition no_page {I : Type} : Page I := {| items := []; next_page_token := None |}.

Definition single {I : Type} (l : list I) : wire (Page I) :=
  wire_of_pages [{| items := l; next_page_token := None |}].

(** Every participant listing is one page. *)
Definition healthy (id : Z) : wire (Page Participant) :=
  if Z.eqb id 101 then single [alice; bob]
  else if Z.eqb id 102 then single [carol]
  else single [alice].

(** The listing of meeting 102 cannot be reached. *)
Definition unreachable (id : Z) : wire (Page Participant) :=
  if Z.eqb id 102 then (fun _ => ConnectFail) else healthy id.

(** The listing of meeting 102 answers 503. *)
Definition unavailable (id : Z) : wire (Page Participant) :=
  if Z.eqb id 102
  then (fun _ => Reply {| status_code := 503; body := no_page |})
  else healthy id.

(** A listing that answers one page with the cursor ["c1"] and 500 from
    then on. *)
Definition broken_after_first {I : Type} (l : list I) : wire (Page I) :=
  fun n => match n with
           | O => Reply {| status_code := 200;
                           body := {| items := l; next_page_token := Some "c1" |} |}
           | S _ => Reply {| status_code := 500; body := no_page |}
           end.

(** A listing that answers one page with the cursor ["c1"] and cannot be
    reached from then on. *)
Definition lost_after_first {I : Type} (l : list I) : wire (Page I) :=
  wire_of_pages [{| items := l; next_page_token := Some "c1" |}].

(** A transport that answers 503 twice (with [err]) and 200 from then on
    (with [ok]). *)
Definition flaky {B : Type} (err ok : B) : wire B :=
  fun n => if Nat.ltb n 2 then Reply {| status_code := 503; body := err |}
           else Reply {| status_code := 200; body := ok |}.

(** A transport that answers 404. *)
Definition missing {B : Type} (err : B) : wire B :=
  fun _ => Reply {| status_code := 404; body := err |}.

Definition always {B : Type} (ok : B) : wire B :=
  fun _ => Reply {| status_code := 200; body := ok |}.

Definition token_data : json :=
  JObj [("access_token", JStr "fresh"); ("expires_in", JNum 3599)].

Definition provider_with (listing : Z -> wire (Page Participant)) : provider :=
  {| oauth_token := always token_data;
     users_me := always (JObj [("id", JStr "me")]);
     user_meetings := fun _ => single [standup; review; retro];
     meeting_participants := listing |}.

End Sample.

(** * Properties *)

Open Scope list_scope.

(** Splits a conjunction of closed facts and evaluates each. *)
Ltac conjuncts := repeat match goal with |- _ /\ _ => split end.
Ltac evaluate := intros; subst; conjuncts; vm_compute; reflexivity.


(** ** Duration of a participant's attendance *)

Section DurationFacts.

Variable parse : string -> option datetime.





End DurationFacts.




(** ** Token cache *)

Section TokenCacheFacts.

Variable isoformat : Z -> string.
Variable fromisoformat : string -> option datetime.

#[local] Abbreviation load := (load_cached_token fromisoformat).
#[local] Abbreviation save := (save_token_to_cache isoformat).

(** What [save] writes, and when: the expiry must be a [timedelta] away and
    a representable datetime. *)
Lemma save_token_to_cache_inv (now : Z) (tok : json) (ttl : Z) (f saved : cache_file) :
  save now tok ttl f = Ok saved ->
  saved = Parsed (JObj [("access_token", tok);
                        ("expiration", JStr (isoformat (now + ttl * 1000000)))])
  /\ timedelta_fits (ttl * 1000000) = true
  /\ representable (now + ttl * 1000000) = true.
Proof.
  unfold save_token_to_cache, timedelta_seconds, timedelta_of, datetime_add.
  destruct (timedelta_fits (ttl * 1000000)); simpl; [|discriminate].
  destruct (representable (now + ttl * 1000000)); simpl; [|discriminate].
  now intros [= <-].
Qed.

Lemma save_token_to_cache_raises (now : Z) (tok : json) (ttl : Z) (f : cache_file) (e : exn) :
  save now tok ttl f = Raise e -> e = OverflowError.
Proof.
  unfold save_token_to_cache, timedelta_seconds, timedelta_of, datetime_add.
  destruct (timedelta_fits (ttl * 1000000)); simpl; [|now intros [= <-]].
  destruct (representable (now + ttl * 1000000)); simpl; [discriminate|].
  now intros [= <-].
Qed.

Lemma load_parsed (now : Z) (kv : list (string * json)) (s : string) (e : Z) :
  assoc "expiration" kv = Some (JStr s) -> fromisoformat s = Some (naive e) ->
  load now (Parsed (JObj kv))
  = if Z.ltb now e then from_option (KeyError "access_token") (assoc "access_token" kv)
    else Ok JNull.
Proof.
  intros Hk Hs. unfold load_cached_token, getitem.
  rewrite Hk. simpl. now rewrite Hs.
Qed.

(** An expiry with a UTC offset cannot be compared with [datetime.now()]. *)
Lemma load_aware (now : Z) (kv : list (string * json)) (s : string) (t : datetime) (o : Z) :
  assoc "expiration" kv = Some (JStr s) -> fromisoformat s = Some t ->
  utcoffset t = Some o ->
  load now (Parsed (JObj kv)) = Raise TypeError.
Proof.
  intros Hk Hs Ho. unfold load_cached_token, getitem.
  rewrite Hk. simpl. rewrite Hs. simpl. unfold datetime_gt. now rewrite Ho.
Qed.

Lemma load_after_save (now now' : Z) (tok : json) (ttl : Z) (f saved : cache_file) :
  save now tok ttl f = Ok saved ->
  reads_back isoformat fromisoformat (now + ttl * 1000000) ->
  load now' saved
  = if Z.ltb now' (now + ttl * 1000000) then Ok tok else Ok JNull.
Proof.
  intros Hsave Hrt. apply save_token_to_cache_inv in Hsave as (-> & _ & _).
  rewrite (load_parsed now' _ (isoformat (now + ttl * 1000000)) (now + ttl * 1000000));
    [reflexivity | reflexivity | exact Hrt].
Qed.

Lemma load_expired (now : Z) (cache : json) (s : string) (e : Z) :
  getitem cache "expiration" = Ok (JStr s) -> fromisoformat s = Some (naive e) ->
  e <= now -> load now (Parsed cache) = Ok JNull.
Proof.
  intros Hk Hs Hle. unfold load_cached_token.
  rewrite Hk. simpl. rewrite Hs. simpl.
  destruct (Z.ltb_spec now e); [lia | reflexivity].
Qed.

Lemma get_access_token_hit (now now_save : Z) (w : wire json) (f : cache_file)
    (tok : json) :
  load now f = Ok tok -> truthy tok = true ->
  get_access_token isoformat fromisoformat now now_save w f = (Ok tok, f, []).
Proof.
  intros Hl Ht. unfold get_access_token. now rewrite Hl, Ht.
Qed.

Lemma get_access_token_load_raises (now now_save : Z) (w : wire json)
    (f : cache_file) (e : exn) :
  load now f = Raise e ->
  get_access_token isoformat fromisoformat now now_save w f = (Raise e, f, []).
Proof.
  intros Hl. unfold get_access_token. now rewrite Hl.
Qed.



End TokenCacheFacts.

(** C3.  [load()] right after [save(tok, ttl)] (less than a second later)
    returns [tok] when [ttl > 0] and nothing when [ttl] is zero or negative;
    it returns nothing when no cache file exists; [save] stores the expiry
    [now + ttl]; and [load] returns nothing whenever the stored expiry is at
    or before the current time.  ([save] has written: the expiry is a
    representable datetime.) *)
Theorem C3_load_after_save :
  forall isoformat fromisoformat (now now' : Z) (tok : json) (ttl : Z)
         (f saved : cache_file),
    let expires_at := now + ttl * 1000000 in
    let load := load_cached_token fromisoformat in
    save_token_to_cache isoformat now tok ttl f = Ok saved ->
    reads_back isoformat fromisoformat expires_at ->
    now <= now' < now + 1000000 ->
    saved = Parsed (JObj [("access_token", tok);
                          ("expiration", JStr (isoformat expires_at))])
    /\ (0 < ttl -> load now' saved = Ok tok)
    /\ (ttl <= 0 -> load now' saved = Ok JNull)
    /\ load now' Absent = Ok JNull
    /\ (forall cache s e t,
          getitem cache "expiration" = Ok (JStr s) ->
          fromisoformat s = Some (naive e) ->
          e <= t -> load t (Parsed cache) = Ok JNull).
Proof.
  intros isoformat fromisoformat now now' tok ttl f saved expires_at load
         Hsave Hrt Hnow.
  split; [now apply (save_token_to_cache_inv isoformat now tok ttl f saved)|].
  split; [|split; [|split]].
  - intros Httl. unfold load.
    rewrite (load_after_save isoformat fromisoformat now now' tok ttl f saved Hsave Hrt).
    destruct (Z.ltb_spec now' (now + ttl * 1000000)); [reflexivity | lia].
  - intros Httl. unfold load.
    rewrite (load_after_save isoformat fromisoformat now now' tok ttl f saved Hsave Hrt).
    destruct (Z.ltb_spec now' (now + ttl * 1000000)); [lia | reflexivity].
  - reflexivity.
  - intros cache s e t Hk Hs Hle. now apply (load_expired fromisoformat t cache s e).
Qed.

Lemma C3_load_after_save_witness :
  let now := 1704103200000123 in
  let load := load_cached_token Iso8601.fromisoformat in
  let valid := Parsed (JObj [("access_token", JStr "tok");
                             ("expiration", JStr "2024-01-01T10:59:59.000123")]) in
  let expired := Parsed (JObj [("access_token", JStr "tok");
                               ("expiration", JStr "2024-01-01T10:00:00.000123")]) in
  save_token_to_cache Iso8601.isoformat now (JStr "tok") 3599 Absent = Ok valid
  /\ load (now + 5) valid = Ok (JStr "tok")
  /\ save_token_to_cache Iso8601.isoformat now (JStr "tok") 0 Absent = Ok expired
  /\ load (now + 5) expired = Ok JNull.
Proof.
  intros now load valid expired.
  split; [reflexivity|]. split; [|split; [reflexivity|]].
  - destruct (C3_load_after_save Iso8601.isoformat Iso8601.fromisoformat
                now (now + 5) (JStr "tok") 3599 Absent valid)
      as (_ & H & _);
      [reflexivity | vm_compute; reflexivity | unfold now; lia |].
    apply H. lia.
  - destruct (C3_load_after_save Iso8601.isoformat Iso8601.fromisoformat
                now (now + 5) (JStr "tok") 0 Absent expired)
      as (_ & _ & H & _);
      [reflexivity | vm_compute; reflexivity | unfold now; lia |].
    apply H. lia.
Defined.

(** C5, as amended.  A cache file that exists but cannot be read or is
    corrupt is not a cache miss: [load()] raises ([PermissionError] for an
    unreadable file, [JSONDecodeError] for invalid JSON, [KeyError] for a
    missing field, [TypeError] for an expiry that is no string or that
    carries a UTC offset, [ValueError] for an expiry that is no ISO
    timestamp), and whatever [load()] raises leaves [get_access_token] before
    any authentication call or cache write and ends the run with an error. *)
Theorem C5_corrupt_cache_raises :
  forall isoformat fromisoformat (now now_save : Z) (w : wire json)
         (f : cache_file) (e : exn),
    let load := load_cached_token fromisoformat in
    load now Unreadable = Raise PermissionError
    /\ load now Invalid = Raise JSONDecodeError
    /\ (forall kv, assoc "expiration" kv = None ->
                   load now (Parsed (JObj kv)) = Raise (KeyError "expiration"))
    /\ (forall kv v, assoc "expiration" kv = Some v ->
                     (forall s, v <> JStr s) ->
                     load now (Parsed (JObj kv)) = Raise TypeError)
    /\ (forall kv s, assoc "expiration" kv = Some (JStr s) ->
                     fromisoformat s = None ->
                     load now (Parsed (JObj kv)) = Raise ValueError)
    /\ (forall kv s t o, assoc "expiration" kv = Some (JStr s) ->
                         fromisoformat s = Some t -> utcoffset t = Some o ->
                         load now (Parsed (JObj kv)) = Raise TypeError)
    /\ (forall kv s t, assoc "expiration" kv = Some (JStr s) ->
                       fromisoformat s = Some (naive t) -> now < t ->
                       assoc "access_token" kv = None ->
                       load now (Parsed (JObj kv)) = Raise (KeyError "access_token"))
    /\ (load now f = Raise e ->
        get_access_token isoformat fromisoformat now now_save w f = (Raise e, f, [])
        /\ forall parse strftime fuel srv,
            oauth_token srv = w ->
            main isoformat fromisoformat parse strftime fuel now now_save srv f
            = Some (ErrorOccurred e, f)).
Proof.
  intros isoformat fromisoformat now now_save w f e load.
  repeat split; try reflexivity.
  - intros kv Hk. unfold load, load_cached_token, getitem. now rewrite Hk.
  - intros kv v Hk Hv. unfold load, load_cached_token, getitem.
    rewrite Hk; simpl. destruct v; try reflexivity. now destruct (Hv s).
  - intros kv s Hk Hs. unfold load, load_cached_token, getitem.
    rewrite Hk; simpl. now rewrite Hs.
  - intros kv s t o Hk Hs Ho. now apply (load_aware fromisoformat now kv s t o).
  - intros kv s t Hk Hs Hlt Ha. unfold load.
    rewrite (load_parsed fromisoformat now kv s t Hk Hs), Ha.
    destruct (Z.ltb_spec now t); [reflexivity | lia].
  - now apply get_access_token_load_raises.
  - intros parse strftime fuel srv Hsrv. unfold main. rewrite Hsrv.
    now rewrite (get_access_token_load_raises isoformat fromisoformat
                   now now_save w f e H).
Qed.

Lemma C5_corrupt_cache_raises_witness :
  let w : wire json := fun _ => ConnectFail in
  let f := Parsed (JObj [("access_token", JStr "tok")]) in
  let g := Parsed (JObj [("access_token", JStr "tok");
                         ("expiration", JStr "2999-01-01T00:00:00+00:00")]) in
  get_access_token Iso8601.isoformat Iso8601.fromisoformat 0 0 w f
  = (Raise (KeyError "expiration"), f, [])
  /\ load_cached_token Iso8601.fromisoformat 0 g = Raise TypeError.
Proof.
  intros w f g. split.
  - destruct (C5_corrupt_cache_raises Iso8601.isoformat Iso8601.fromisoformat
                0 0 w f (KeyError "expiration")) as (_ & _ & _ & _ & _ & _ & _ & H).
    apply H. reflexivity.
  - destruct (C5_corrupt_cache_raises Iso8601.isoformat Iso8601.fromisoformat
                0 0 w g TypeError) as (_ & _ & _ & _ & _ & H & _).
    apply (H _ "2999-01-01T00:00:00+00:00"
             {| wall := 32472144000000000; utcoffset := Some 0 |} 0);
      reflexivity.
Defined.

(** C5, as stated, fails on a cache file that is not valid JSON: [load()]
    raises instead of returning nothing, and no fresh authentication follows
    although the provider would have answered (as it does when there is no
    cache file). *)
Lemma C5_invalid_cache_is_fatal :
  let w : wire json := fun _ =>
    Reply {| status_code := 200;
             body := JObj [("access_token", JStr "fresh"); ("expires_in", JNum 3599)] |} in
  load_cached_token Iso8601.fromisoformat 0 Invalid = Raise JSONDecodeError
  /\ load_cached_token Iso8601.fromisoformat 0 Invalid <> Ok JNull
  /\ get_access_token Iso8601.isoformat Iso8601.fromisoformat 0 0 w Invalid
     = (Raise JSONDecodeError, Invalid, [])
  /\ exists f',
      get_access_token Iso8601.isoformat Iso8601.fromisoformat 0 0 w Absent
      = (Ok (JStr "fresh"), f', [HttpCall POST 1; CacheWrite f']).
Proof.
  repeat split; try reflexivity; [discriminate|].
  eexists. vm_compute. reflexivity.
Qed.




(** ** Paginated listing *)

Section PageLoopFacts.

Context {I : Type}.
Implicit Types (w : wire (Page I)) (p : Page I) (acc : list I)
  (response : option (Response (Page I))) (sent : request_log).

Lemma page_loop_continue fuel w n token acc response sent p :
  page_at w n = Some p -> has_cursor p = true ->
  page_loop (S fuel) w n token acc response sent
  = page_loop fuel w (S n) (next_page_token p) (acc ++ items p)
      (response_at w n) (sent ++ [token]).
Proof.
  unfold page_at, response_at, has_cursor. simpl. unfold requests_get, raise_for_status.
  destruct (w n) as [|r]; [discriminate|].
  destruct (is_error_status (status_code r)); [discriminate|].
  intros [= <-]. destruct (next_page_token (body r)) as [t|]; [|discriminate].
  now intros ->.
Qed.

Lemma page_loop_break fuel w n token acc response sent p :
  page_at w n = Some p -> has_cursor p = false ->
  page_loop (S fuel) w n token acc response sent
  = Some (Completed (acc ++ items p), sent ++ [token]).
Proof.
  unfold page_at, has_cursor. simpl. unfold requests_get, raise_for_status.
  destruct (w n) as [|r]; [discriminate|].
  destruct (is_error_status (status_code r)); [discriminate|].
  intros [= <-]. destruct (next_page_token (body r)) as [t|]; [|reflexivity].
  now intros ->.
Qed.

Lemma serves_tail w n p ps : serves w n (p :: ps) -> serves w (S n) ps.
Proof.
  intros H i q Hq. specialize (H (S i) q Hq).
  now replace (S n + i)%nat with (n + S i)%nat by lia.
Qed.

Lemma serves_head w n p ps : serves w n (p :: ps) -> page_at w n = Some p.
Proof.
  intros H. specialize (H 0%nat p eq_refl). now rewrite Nat.add_0_r in H.
Qed.

(** The loop over pages that all carry a cursor, followed by one that does
    not: every page is requested once, in order, with the cursor of the page
    before, and the items are accumulated in that order. *)
Lemma page_loop_pages ps : forall last fuel w n token acc response sent,
  serves w n (ps ++ [last]) ->
  forallb has_cursor ps = true -> has_cursor last = false ->
  (List.length ps < fuel)%nat ->
  page_loop fuel w n token acc response sent
  = Some (Completed (acc ++ List.concat (map items (ps ++ [last]))),
          sent ++ token :: map next_page_token ps).
Proof.
  induction ps as [|p ps IH]; intros last fuel w n token acc response sent Hs Hc Hl Hf;
    (destruct fuel as [|fuel]; [simpl in Hf; lia|]).
  - rewrite (page_loop_break fuel w n token acc response sent last);
      [|now apply (serves_head w n last []) | exact Hl].
    simpl. now rewrite app_nil_r.
  - simpl in Hc. apply andb_prop in Hc as [Hp Hc].
    rewrite (page_loop_continue fuel w n token acc response sent p);
      [|now apply (serves_head w n p (ps ++ [last])) | exact Hp].
    rewrite (IH last fuel w (S n)); try assumption.
    + simpl. now rewrite <- !app_assoc.
    + now apply (serves_tail w n p).
    + simpl in Hf. lia.
Qed.

(** A page without a cursor at distance [k] stops the loop within [k + 1]
    requests (a failed request stops it sooner). *)
Lemma page_loop_returns k : forall w n token acc response sent p,
  page_at w (n + k) = Some p -> has_cursor p = false ->
  page_loop (S k) w n token acc response sent <> None.
Proof.
  induction k as [|k IH]; intros w n token acc response sent p Hp Hc.
  - rewrite Nat.add_0_r in Hp.
    now rewrite (page_loop_break 0 w n token acc response sent p).
  - destruct (page_at w n) as [q|] eqn:Hq.
    + destruct (has_cursor q) eqn:Hcq.
      * rewrite (page_loop_continue (S k) w n token acc response sent q Hq Hcq).
        apply (IH w (S n) _ _ _ _ p); [|exact Hc].
        now replace (S n + k)%nat with (n + S k)%nat by lia.
      * now rewrite (page_loop_break (S k) w n token acc response sent q).
    + revert Hq. unfold page_at. simpl. unfold requests_get, raise_for_status.
      destruct (w n) as [|r]; [discriminate|].
      destruct (is_error_status (status_code r)); discriminate.
Qed.

(** When every request is answered with a page, the loop returns only after
    a page without a cursor. *)
Lemma page_loop_returned fuel : forall w n token acc response sent x,
  (forall m, page_at w m <> None) ->
  page_loop fuel w n token acc response sent = Some x ->
  exists m p, page_at w m = Some p /\ has_cursor p = false.
Proof.
  induction fuel as [|fuel IH]; intros w n token acc response sent x Hall H;
    [discriminate|].
  destruct (page_at w n) as [q|] eqn:Hq; [|now destruct (Hall n)].
  destruct (has_cursor q) eqn:Hcq.
  - rewrite (page_loop_continue fuel w n token acc response sent q Hq Hcq) in H.
    now apply IH in H.
  - now exists n, q.
Qed.

(** Cursors on every page: the loop never returns. *)
Lemma page_loop_diverges fuel : forall w n token acc response sent,
  (forall m, exists p, page_at w m = Some p /\ has_cursor p = true) ->
  page_loop fuel w n token acc response sent = None.
Proof.
  induction fuel as [|fuel IH]; intros w n token acc response sent Hall;
    [reflexivity|].
  destruct (Hall n) as (p & Hp & Hc).
  rewrite (page_loop_continue fuel w n token acc response sent p Hp Hc).
  now apply IH.
Qed.

End PageLoopFacts.

Lemma has_cursor_false {I : Type} (p : Page I) :
  has_cursor p = false <-> next_page_token p = None \/ next_page_token p = Some "".
Proof.
  unfold has_cursor, truthy_str. destruct (next_page_token p) as [t|].
  - destruct (String.eqb_spec t ""); simpl; split.
    + intros _. right. now subst.
    + reflexivity.
    + discriminate.
    + intros [H|H]; [discriminate | congruence].
  - split; [now left | reflexivity].
Qed.

Lemma has_cursor_true {I : Type} (p : Page I) (c : string) :
  next_page_token p = Some c -> c <> "" -> has_cursor p = true.
Proof.
  intros H Hc. unfold has_cursor, truthy_str. rewrite H.
  now destruct (String.eqb_spec c "").
Qed.

Lemma get_meetings_pages fuel (w : wire (Page Meeting)) ps last :
  serves w 0 (ps ++ [last]) ->
  forallb has_cursor ps = true -> has_cursor last = false ->
  (List.length ps < fuel)%nat ->
  get_meetings fuel w
  = Some (Ok (List.concat (map items (ps ++ [last]))), None :: map next_page_token ps).
Proof.
  intros Hs Hc Hl Hf. unfold get_meetings.
  now rewrite (page_loop_pages ps last fuel w 0 None [] None [] Hs Hc Hl Hf).
Qed.

Lemma get_meeting_participants_pages fuel (w : wire (Page Participant)) ps last :
  serves w 0 (ps ++ [last]) ->
  forallb has_cursor ps = true -> has_cursor last = false ->
  (List.length ps < fuel)%nat ->
  get_meeting_participants fuel w
  = Some (Ok (List.concat (map items (ps ++ [last]))), None :: map next_page_token ps).
Proof.
  intros Hs Hc Hl Hf. unfold get_meeting_participants.
  now rewrite (page_loop_pages ps last fuel w 0 None [] None [] Hs Hc Hl Hf).
Qed.

(** C4.  For pages P1 with cursor c1, P2 with cursor c2 and P3 without a
    cursor, [get_meetings] and [get_meeting_participants] return the items of
    P1, P2 and P3 in that order and send exactly three requests, with the
    cursors none, c1 and c2.  In general the listing stops at the first page
    whose cursor is absent or empty, after one request per page, each with
    the cursor of the page before, and returns the items in the order met. *)
Theorem C4_pagination_concatenates_in_order :
  forall fuel : nat,
    (forall (w : wire (Page Meeting)) P1 P2 P3 c1 c2,
        serves w 0 [P1; P2; P3] ->
        next_page_token P1 = Some c1 -> c1 <> "" ->
        next_page_token P2 = Some c2 -> c2 <> "" ->
        next_page_token P3 = None \/ next_page_token P3 = Some "" ->
        (3 <= fuel)%nat ->
        get_meetings fuel w
        = Some (Ok (items P1 ++ items P2 ++ items P3), [None; Some c1; Some c2]))
    /\ (forall (w : wire (Page Participant)) P1 P2 P3 c1 c2,
        serves w 0 [P1; P2; P3] ->
        next_page_token P1 = Some c1 -> c1 <> "" ->
        next_page_token P2 = Some c2 -> c2 <> "" ->
        next_page_token P3 = None \/ next_page_token P3 = Some "" ->
        (3 <= fuel)%nat ->
        get_meeting_participants fuel w
        = Some (Ok (items P1 ++ items P2 ++ items P3), [None; Some c1; Some c2]))
    /\ (forall (w : wire (Page Meeting)) ps last,
        serves w 0 (ps ++ [last]) ->
        forallb has_cursor ps = true ->
        next_page_token last = None \/ next_page_token last = Some "" ->
        (List.length ps < fuel)%nat ->
        get_meetings fuel w
        = Some (Ok (List.concat (map items (ps ++ [last]))),
                None :: map next_page_token ps))
    /\ (forall (w : wire (Page Participant)) ps last,
        serves w 0 (ps ++ [last]) ->
        forallb has_cursor ps = true ->
        next_page_token last = None \/ next_page_token last = Some "" ->
        (List.length ps < fuel)%nat ->
        get_meeting_participants fuel w
        = Some (Ok (List.concat (map items (ps ++ [last]))),
                None :: map next_page_token ps)).
Proof.
  intros fuel. split; [|split; [|split]].
  - intros w P1 P2 P3 c1 c2 Hs H1 Hc1 H2 Hc2 H3 Hf.
    rewrite (get_meetings_pages fuel w [P1; P2] P3 Hs).
    + simpl. now rewrite H1, H2, app_nil_r.
    + simpl. now rewrite (has_cursor_true P1 c1), (has_cursor_true P2 c2).
    + now apply has_cursor_false.
    + simpl. lia.
  - intros w P1 P2 P3 c1 c2 Hs H1 Hc1 H2 Hc2 H3 Hf.
    rewrite (get_meeting_participants_pages fuel w [P1; P2] P3 Hs).
    + simpl. now rewrite H1, H2, app_nil_r.
    + simpl. now rewrite (has_cursor_true P1 c1), (has_cursor_true P2 c2).
    + now apply has_cursor_false.
    + simpl. lia.
  - intros w ps last Hs Hc Hl Hf.
    apply get_meetings_pages; try assumption. now apply has_cursor_false.
  - intros w ps last Hs Hc Hl Hf.
    apply get_meeting_participants_pages; try assumption. now apply has_cursor_false.
Qed.

Lemma serves_wire_of_pages {I : Type} (ps : list (Page I)) :
  serves (wire_of_pages ps) 0 ps.
Proof.
  intros i p H. unfold page_at, wire_of_pages. simpl. now rewrite H.
Qed.

Lemma C4_pagination_concatenates_in_order_witness :
  let m (k : Z) := {| m_id := k; m_topic := "standup";
                      m_start_time := "2024-01-01T10:00:00Z"; m_duration := 30 |} in
  let P1 := {| items := [m 1; m 2]; next_page_token := Some "c1" |} in
  let P2 := {| items := [m 3]; next_page_token := Some "c2" |} in
  let P3 := {| items := [m 4]; next_page_token := Some "" |} in
  get_meetings 3 (wire_of_pages [P1; P2; P3])
  = Some (Ok [m 1; m 2; m 3; m 4], [None; Some "c1"; Some "c2"]).
Proof.
  intros m P1 P2 P3.
  apply (proj1 (C4_pagination_concatenates_in_order 3)
           (wire_of_pages [P1; P2; P3]) P1 P2 P3 "c1" "c2").
  - apply serves_wire_of_pages.
  - reflexivity.
  - discriminate.
  - reflexivity.
  - discriminate.
  - now right.
  - lia.
Defined.

Lemma get_meetings_returns (w : wire (Page Meeting)) :
  (exists fuel, get_meetings fuel w <> None)
  <-> (exists fuel, page_loop fuel w 0 None [] None [] <> None).
Proof.
  split; intros [fuel H]; exists fuel; unfold get_meetings in *;
    destruct (page_loop fuel w 0 None [] None []) as [[[acc|e response] sent]|];
    try discriminate; try (now contradiction H).
Qed.

Lemma get_meeting_participants_returns (w : wire (Page Participant)) :
  (exists fuel, get_meeting_participants fuel w <> None)
  <-> (exists fuel, page_loop fuel w 0 None [] None [] <> None).
Proof.
  split; intros [fuel H]; exists fuel; unfold get_meeting_participants in *;
    destruct (page_loop fuel w 0 None [] None []) as [[[acc|e response] sent]|];
    try discriminate; try (now contradiction H).
Qed.

Lemma page_loop_returns_iff {I : Type} (w : wire (Page I)) :
  (forall n, page_at w n <> None) ->
  (exists fuel, page_loop fuel w 0 None [] None [] <> None)
  <-> (exists n p, page_at w n = Some p
                   /\ (next_page_token p = None \/ next_page_token p = Some "")).
Proof.
  intros Hall. split.
  - intros [fuel H].
    destruct (page_loop fuel w 0 None [] None []) as [x|] eqn:Hx; [|now contradiction H].
    destruct (page_loop_returned fuel w 0 None [] None [] x Hall Hx) as (n & p & Hp & Hc).
    exists n, p. split; [exact Hp | now apply has_cursor_false].
  - intros (n & p & Hp & Hc). exists (S n).
    apply (page_loop_returns n w 0 None [] None [] p); [exact Hp | now apply has_cursor_false].
Qed.

(** Over [cursor_pages N] the loop sends [N + 1] requests. *)
Lemma page_loop_long {I : Type} (N : nat) :
  let w : wire (Page I) := cursor_pages N in
  forall k n token acc response sent,
    (n + k = N)%nat ->
    page_loop (S k) w n token acc response sent
    = Some (Completed acc, sent ++ token :: repeat (Some "next") k).
Proof.
  intros w. induction k as [|k IH]; intros n token acc response sent Hn.
  - assert (Hp : page_at w n = Some {| items := []; next_page_token := None |}).
    { unfold page_at, w, cursor_pages. simpl. destruct (Nat.ltb_spec n N); [lia | reflexivity]. }
    rewrite (page_loop_break 0 w n token acc response sent _ Hp eq_refl).
    simpl. now rewrite app_nil_r.
  - assert (Hp : page_at w n = Some {| items := []; next_page_token := Some "next" |}).
    { unfold page_at, w, cursor_pages. simpl. destruct (Nat.ltb_spec n N); [reflexivity | lia]. }
    rewrite (page_loop_continue (S k) w n token acc response sent _ Hp eq_refl).
    rewrite IH by lia. simpl. now rewrite app_nil_r, <- app_assoc.
Qed.

(** C9.  Against a provider that answers every request with a page, the
    loops of [get_meetings] and [get_meeting_participants] return if and only
    if some page has an absent or empty [next_page_token]; when every page
    carries a non-empty one they never return; and the number of requests
    has no bound. *)
Theorem C9_pagination_terminates_iff_cursor_ends :
  (forall w : wire (Page Meeting),
      (forall n, page_at w n <> None) ->
      ((exists fuel, get_meetings fuel w <> None)
       <-> (exists n p, page_at w n = Some p
                        /\ (next_page_token p = None \/ next_page_token p = Some ""))))
  /\ (forall w : wire (Page Participant),
      (forall n, page_at w n <> None) ->
      ((exists fuel, get_meeting_participants fuel w <> None)
       <-> (exists n p, page_at w n = Some p
                        /\ (next_page_token p = None \/ next_page_token p = Some ""))))
  /\ (forall w : wire (Page Meeting),
      (forall n, exists p, page_at w n = Some p /\ has_cursor p = true) ->
      forall fuel, get_meetings fuel w = None)
  /\ (forall w : wire (Page Participant),
      (forall n, exists p, page_at w n = Some p /\ has_cursor p = true) ->
      forall fuel, get_meeting_participants fuel w = None)
  /\ (forall N : nat, exists (w : wire (Page Meeting)) fuel r sent,
        (forall n, page_at w n <> None)
        /\ get_meetings fuel w = Some (r, sent) /\ List.length sent = S N)
  /\ (forall N : nat, exists (w : wire (Page Participant)) fuel r sent,
        (forall n, page_at w n <> None)
        /\ get_meeting_participants fuel w = Some (r, sent) /\ List.length sent = S N).
Proof.
  repeat apply conj.
  - intros w Hall. rewrite get_meetings_returns. now apply page_loop_returns_iff.
  - intros w Hall. rewrite get_meeting_participants_returns.
    now apply page_loop_returns_iff.
  - intros w Hall fuel. unfold get_meetings.
    now rewrite (page_loop_diverges fuel w 0 None [] None [] Hall).
  - intros w Hall fuel. unfold get_meeting_participants.
    now rewrite (page_loop_diverges fuel w 0 None [] None [] Hall).
  - intros N. exists (cursor_pages N), (S N). do 2 eexists. split; [|split].
    + intros n. unfold page_at, cursor_pages. simpl. discriminate.
    + unfold get_meetings.
      rewrite (page_loop_long (I := Meeting) N N 0 None [] None [] eq_refl). reflexivity.
    + simpl. now rewrite repeat_length.
  - intros N. exists (cursor_pages N), (S N). do 2 eexists. split; [|split].
    + intros n. unfold page_at, cursor_pages. simpl. discriminate.
    + unfold get_meeting_participants.
      rewrite (page_loop_long (I := Participant) N N 0 None [] None [] eq_refl).
      reflexivity.
    + simpl. now rewrite repeat_length.
Qed.

Lemma C9_pagination_terminates_iff_cursor_ends_witness :
  (exists fuel, get_meetings fuel (cursor_pages 2) <> None)
  /\ get_meeting_participants 50
       (fun _ => Reply {| status_code := 200;
                          body := {| items := []; next_page_token := Some "again" |} |})
     = None.
Proof.
  destruct C9_pagination_terminates_iff_cursor_ends as (H1 & _ & _ & H4 & _).
  split.
  - apply (H1 (cursor_pages 2)).
    + intros n. unfold page_at, cursor_pages. simpl. discriminate.
    + exists 2%nat, {| items := []; next_page_token := None |}.
      split; [reflexivity | now left].
  - apply H4. intros n. eexists. split; reflexivity.
Defined.

(** ** Failures of a listing *)

Section PageLoopFailures.

Context {I : Type}.
Implicit Types (w : wire (Page I)) (acc : list I)
  (response : option (Response (Page I))) (sent : request_log).

(** A response with an error status after the pages [ps]: the loop is left
    with [HTTPError], and [response] is bound to that response. *)
Lemma page_loop_http_error ps : forall fuel w n token acc response sent r,
  serves w n ps -> forallb has_cursor ps = true ->
  w (n + List.length ps)%nat = Reply r -> is_error_status (status_code r) = true ->
  (List.length ps < fuel)%nat ->
  page_loop fuel w n token acc response sent
  = Some (Failed (HTTPError (status_code r)) (Some r),
          sent ++ token :: map next_page_token ps).
Proof.
  induction ps as [|p ps IH]; intros fuel w n token acc response sent r Hs Hc Hw He Hf;
    (destruct fuel as [|fuel]; [simpl in Hf; lia|]).
  - simpl in Hw. rewrite Nat.add_0_r in Hw. simpl.
    unfold requests_get, raise_for_status. now rewrite Hw, He.
  - simpl in Hc. apply andb_prop in Hc as [Hp Hc].
    rewrite (page_loop_continue fuel w n token acc response sent p);
      [|now apply (serves_head w n p ps) | exact Hp].
    rewrite (IH fuel w (S n) _ _ _ _ r); try assumption.
    + simpl. now rewrite <- app_assoc.
    + now apply (serves_tail w n p).
    + now replace (S n + List.length ps)%nat with (n + List.length (p :: ps))%nat
        by (simpl; lia).
    + simpl in Hf. lia.
Qed.

(** A connection failure after the pages [ps]: the loop is left with
    [ConnectionError], and [response] is what it was before the failing
    request: the caller's binding when no page came first, the response of
    the page before otherwise. *)
Lemma page_loop_connect_fail ps : forall fuel w n token acc response sent,
  serves w n ps -> forallb has_cursor ps = true ->
  w (n + List.length ps)%nat = ConnectFail ->
  (List.length ps < fuel)%nat ->
  exists response',
    page_loop fuel w n token acc response sent
    = Some (Failed ConnectionError response',
            sent ++ token :: map next_page_token ps)
    /\ (ps = [] -> response' = response)
    /\ (ps <> [] -> response' <> None).
Proof.
  induction ps as [|p ps IH]; intros fuel w n token acc response sent Hs Hc Hw Hf;
    (destruct fuel as [|fuel]; [simpl in Hf; lia|]).
  - simpl in Hw. rewrite Nat.add_0_r in Hw. exists response. simpl.
    unfold requests_get. rewrite Hw. split; [reflexivity|]. split; congruence.
  - simpl in Hc. apply andb_prop in Hc as [Hp Hc].
    pose proof (serves_head w n p ps Hs) as Hhead.
    rewrite (page_loop_continue fuel w n token acc response sent p Hhead Hp).
    destruct (IH fuel w (S n) (next_page_token p) (acc ++ items p)
                (response_at w n) (sent ++ [token])) as (r' & Hr & Hnil & Hcons);
      try assumption.
    + now apply (serves_tail w n p).
    + now replace (S n + List.length ps)%nat with (n + List.length (p :: ps))%nat
        by (simpl; lia).
    + simpl in Hf. lia.
    + exists r'. split; [|split].
      * rewrite Hr. simpl. now rewrite <- app_assoc.
      * discriminate.
      * intros _. destruct ps as [|q ps].
        -- rewrite (Hnil eq_refl). unfold page_at in Hhead. unfold response_at.
           destruct (w n); [discriminate | discriminate].
        -- apply Hcons. discriminate.
Qed.

End PageLoopFailures.

(** Any failed request of the meeting listing ends [get_meetings] with an
    exception: the meetings of the pages before are not returned. *)
Lemma get_meetings_failure_raises fuel (w : wire (Page Meeting)) ps :
  serves w 0 ps -> forallb has_cursor ps = true ->
  page_at w (List.length ps) = None ->
  (List.length ps < fuel)%nat ->
  exists e, get_meetings fuel w = Some (Raise e, None :: map next_page_token ps).
Proof.
  intros Hs Hc Hw Hf. unfold get_meetings. unfold page_at in Hw.
  destruct (w (List.length ps)) as [|r] eqn:Hr.
  - destruct (page_loop_connect_fail ps fuel w 0 None [] None [] Hs Hc Hr Hf)
      as (r' & -> & _). simpl. destruct r'; simpl; eexists; reflexivity.
  - destruct (is_error_status (status_code r)) eqn:He; [|discriminate].
    rewrite (page_loop_http_error ps fuel w 0 None [] None [] r Hs Hc Hr He Hf).
    simpl. eexists. reflexivity.
Qed.

(** An error status on any page of the participant listing is caught: the
    result is the empty list. *)
Lemma get_meeting_participants_http_error fuel (w : wire (Page Participant)) ps r :
  serves w 0 ps -> forallb has_cursor ps = true ->
  w (List.length ps) = Reply r -> is_error_status (status_code r) = true ->
  (List.length ps < fuel)%nat ->
  get_meeting_participants fuel w = Some (Ok [], None :: map next_page_token ps).
Proof.
  intros Hs Hc Hr He Hf. unfold get_meeting_participants.
  now rewrite (page_loop_http_error ps fuel w 0 None [] None [] r Hs Hc Hr He Hf).
Qed.

(** A connection failure after at least one page is caught as well. *)
Lemma get_meeting_participants_late_connect_fail fuel (w : wire (Page Participant)) ps :
  serves w 0 ps -> forallb has_cursor ps = true -> ps <> [] ->
  w (List.length ps) = ConnectFail ->
  (List.length ps < fuel)%nat ->
  get_meeting_participants fuel w = Some (Ok [], None :: map next_page_token ps).
Proof.
  intros Hs Hc Hne Hr Hf. unfold get_meeting_participants.
  destruct (page_loop_connect_fail ps fuel w 0 None [] None [] Hs Hc Hr Hf)
    as (r' & -> & _ & Hb). simpl.
  destruct r'; [reflexivity | now destruct (Hb Hne)].
Qed.

(** A connection failure of the first request is not: the handler reads
    [response] before any response was assigned to it. *)
Lemma get_meeting_participants_first_connect_fail fuel (w : wire (Page Participant)) :
  w 0%nat = ConnectFail ->
  get_meeting_participants (S fuel) w
  = Some (Raise (UnboundLocalError "response"), [None]).
Proof.
  intros Hw. unfold get_meeting_participants. simpl. unfold requests_get.
  now rewrite Hw.
Qed.

(** ** Summarizer *)

Section SummarizerFacts.

Variable parse : string -> option datetime.
Variable strftime : datetime -> string.
Variable listing : Z -> wire (Page Participant).



Lemma participant_loop_inv todo : forall acc out,
  participant_loop parse todo acc = Ok out ->
  exists ss, out = acc ++ ss
             /\ Forall2 (fun p q => summarize_participant parse p = Ok q) todo ss.
Proof.
  induction todo as [|p todo IH]; intros acc out H; simpl in H.
  - injection H as <-. exists []. now rewrite app_nil_r.
  - destruct (summarize_participant parse p) as [s|e] eqn:Hs; [|discriminate].
    simpl in H. apply IH in H as (ss & -> & HF).
    exists (s :: ss). split; [now rewrite <- app_assoc | now constructor].
Qed.








End SummarizerFacts.






(** C10.  For a participant record without an email field the summary
    holds the string "N/A" as email; its name and duration are those of the
    same record with any email in place.  In what the participant loop
    returns, every record without an email field is summarized with "N/A". *)
Theorem C10_missing_email_is_NA :
  forall parse,
    (forall participant s,
        p_email participant = None ->
        summarize_participant parse participant = Ok s ->
        s_email s = "N/A"
        /\ s_name s = p_name participant
        /\ (exists d,
               calculate_participant_duration parse
                 (p_join_time participant) (p_leave_time participant) = Ok d
               /\ s_duration s = (str d ++ " minutes")%string)
        /\ (forall e,
               summarize_participant parse
                 {| p_name := p_name participant; p_email := Some e;
                    p_join_time := p_join_time participant;
                    p_leave_time := p_leave_time participant |}
               = Ok {| s_name := s_name s; s_email := e; s_duration := s_duration s |}))
    /\ (forall todo out,
           participant_loop parse todo [] = Ok out ->
           Forall2 (fun p s => p_email p = None -> s_email s = "N/A") todo out).
Proof.
  intros parse. split.
  - intros participant s Hemail. unfold summarize_participant, get_email.
    rewrite Hemail. simpl.
    destruct (calculate_participant_duration parse (p_join_time participant)
                (p_leave_time participant)) as [d|e]; simpl; [|discriminate].
    intros [= <-]. simpl. repeat split. now exists d.
  - intros todo out H. apply participant_loop_inv in H as (ss & -> & HF). simpl.
    eapply Forall2_impl; [|exact HF].
    intros p s Hs Hemail. revert Hs. unfold summarize_participant, get_email.
    rewrite Hemail.
    destruct (calculate_participant_duration parse (p_join_time p) (p_leave_time p));
      simpl; [|discriminate].
    now intros [= <-].
Qed.

Lemma C10_missing_email_is_NA_witness :
  summarize_participant Iso8601.parse Sample.bob
  = Ok {| s_name := "Bob"; s_email := "N/A"; s_duration := "25 minutes" |}
  /\ s_email {| s_name := "Bob"; s_email := "N/A"; s_duration := "25 minutes" |} = "N/A".
Proof.
  split; [reflexivity|].
  apply (proj1 (C10_missing_email_is_NA Iso8601.parse) Sample.bob); reflexivity.
Defined.

(** C2 at its failing input.  A meeting listing that fails, on whatever
    request and in whatever way, ends with an exception and returns none of
    the meetings fetched so far; a participant listing that answers 503, or
    that is lost after its first page, is caught and leaves that meeting with
    no participants while the other meetings are summarized.  But when the
    participant listing of meeting 102 cannot be reached at its first
    request, the handler of [get_meeting_participants] reads the unbound
    [response]: the [UnboundLocalError] leaves [summarize_meetings] and
    [main] reports an error instead of a report. *)
Theorem C2_unreachable_listing_aborts_the_run :
  let meetings := [Sample.standup; Sample.review; Sample.retro] in
  let summarize := summarize_meetings Iso8601.parse Iso8601.strftime in
  get_meetings 5 (Sample.broken_after_first [Sample.standup])
  = Some (Raise (Exception "Failed to fetch meetings"), [None; Some "c1"])
  /\ get_meetings 5 (Sample.lost_after_first [Sample.standup])
     = Some (Raise (Exception "Failed to fetch meetings"), [None; Some "c1"])
  /\ get_meetings 5 (fun _ => ConnectFail)
     = Some (Raise (UnboundLocalError "response"), [None])
  /\ get_meeting_participants 5 (Sample.unavailable 102) = Some (Ok [], [None])
  /\ get_meeting_participants 5 (Sample.lost_after_first [Sample.alice])
     = Some (Ok [], [None; Some "c1"])
  /\ (exists s1 s3,
         summarize Sample.unavailable 5%nat meetings
         = Some (Ok [s1;
                     {| topic := "Review"; start_time := "2024-01-02 16:00";
                        end_time := "2024-01-02 17:00";
                        scheduled_duration := "60 minutes"; participants := [] |};
                     s3]))
  /\ get_meeting_participants 5 (Sample.unreachable 102)
     = Some (Raise (UnboundLocalError "response"), [None])
  /\ summarize Sample.unreachable 5%nat meetings
     = Some (Raise (UnboundLocalError "response"))
  /\ (exists f,
         main Iso8601.isoformat Iso8601.fromisoformat Iso8601.parse Iso8601.strftime
           5 0 0 (Sample.provider_with Sample.unreachable) Absent
         = Some (ErrorOccurred (UnboundLocalError "response"), f)).
Proof.
  intros meetings summarize. subst meetings summarize.
  conjuncts; try (vm_compute; reflexivity).
  - do 2 eexists. vm_compute. reflexivity.
  - eexists. vm_compute. reflexivity.
Qed.

(** C7 at its failing input.  [get_meetings] and [get_meeting_participants]
    call [requests.get], not the session the retry policy is mounted on:
    against a transport that answers 503 twice and then 200 each sends one
    request and fails, where [get_user_id], over [session.get], makes three
    attempts and succeeds.  A 404 is one attempt and a failure on either
    path. *)
Theorem C7_listings_bypass_the_retrying_session :
  get_meetings 5
    (Sample.flaky Sample.no_page {| items := [Sample.standup]; next_page_token := None |})
  = Some (Raise (Exception "Failed to fetch meetings"), [None])
  /\ get_meeting_participants 5
       (Sample.flaky Sample.no_page {| items := [Sample.alice]; next_page_token := None |})
     = Some (Ok [], [None])
  /\ get_user_id (Sample.flaky JNull (JObj [("id", JStr "me")])) = (Ok (JStr "me"), 3%nat)
  /\ get_user_id (Sample.missing JNull)
     = (Raise (Exception "Failed to obtain user ID"), 1%nat)
  /\ get_meetings 5 (Sample.missing Sample.no_page)
     = Some (Raise (Exception "Failed to fetch meetings"), [None]).
Proof.
  evaluate.
Qed.

(** * Further properties of the listings *)

Section PageLoopInvariants.

Context {I : Type}.
Implicit Types (w : wire (Page I)) (acc : list I)
  (response : option (Response (Page I))) (sent : request_log).

(** The log grows by the parameter of the request being sent, and every
    parameter after that one is a cursor. *)
Lemma page_loop_sent fuel : forall w n token acc response sent0 x sent,
  page_loop fuel w n token acc response sent0 = Some (x, sent) ->
  exists l, sent = sent0 ++ token :: l /\ Forall is_cursor l.
Proof.
  induction fuel as [|fuel IH]; intros w n token acc response sent0 x sent H;
    [discriminate|].
  simpl in H. destruct (requests_get w n) as [r|e].
  - destruct (raise_for_status r).
    + destruct (next_page_token (body r)) as [t|] eqn:Ht.
      * unfold truthy_str in H. destruct (String.eqb_spec t ""); simpl in H.
        -- injection H as _ <-. now exists [].
        -- apply IH in H as (l & -> & HF). exists (Some t :: l).
           split; [now rewrite <- app_assoc|].
           constructor; [now exists t | exact HF].
      * injection H as _ <-. now exists [].
    + injection H as _ <-. now exists [].
  - injection H as _ <-. now exists [].
Qed.

Lemma serves_cons w n p ps :
  page_at w n = Some p -> serves w (S n) ps -> serves w n (p :: ps).
Proof.
  intros Hp Hs [|i] q Hq; simpl in Hq.
  - injection Hq as <-. now rewrite Nat.add_0_r.
  - replace (n + S i)%nat with (S n + i)%nat by lia. now apply Hs.
Qed.

(** The loop is left by [break] only after pages that all carried a cursor
    and one that did not, and with the items of all of them. *)
Lemma page_loop_completed fuel : forall w n token acc response sent0 out sent,
  page_loop fuel w n token acc response sent0 = Some (Completed out, sent) ->
  exists ps last,
    serves w n (ps ++ [last])
    /\ forallb has_cursor ps = true /\ has_cursor last = false
    /\ out = acc ++ List.concat (map items (ps ++ [last]))
    /\ sent = sent0 ++ token :: map next_page_token ps.
Proof.
  induction fuel as [|fuel IH]; intros w n token acc response sent0 out sent H;
    [discriminate|].
  destruct (page_at w n) as [p|] eqn:Hp.
  - destruct (has_cursor p) eqn:Hc.
    + rewrite (page_loop_continue fuel w n token acc response sent0 p Hp Hc) in H.
      apply IH in H as (ps & last & Hs & Hcs & Hl & -> & ->).
      exists (p :: ps), last. repeat split.
      * now apply serves_cons.
      * simpl. now rewrite Hc.
      * exact Hl.
      * simpl. now rewrite <- !app_assoc.
      * simpl. now rewrite <- app_assoc.
    + rewrite (page_loop_break fuel w n token acc response sent0 p Hp Hc) in H.
      injection H as <- <-. exists [], p. repeat split.
      * intros [|i] q Hq; simpl in Hq.
        -- injection Hq as <-. now rewrite Nat.add_0_r.
        -- now destruct i.
      * exact Hc.
      * simpl. now rewrite app_nil_r.
  - exfalso. revert Hp H. unfold page_at. simpl. unfold requests_get, raise_for_status.
    destruct (w n) as [|r]; [discriminate|].
    destruct (is_error_status (status_code r)); discriminate.
Qed.

End PageLoopInvariants.

(** X1.  When a request of the meeting listing fails after pages that all
    carried a cursor, [get_meetings] raises and returns none of the meetings
    of those pages: ["Failed to fetch meetings"], except that a connection
    failure of the very first request surfaces as [UnboundLocalError]. *)
Theorem get_meetings_failure_discards_pages :
  forall fuel (w : wire (Page Meeting)) ps,
    serves w 0 ps -> forallb has_cursor ps = true ->
    page_at w (List.length ps) = None ->
    (List.length ps < fuel)%nat ->
    get_meetings fuel w
    = Some (Raise (match ps, w 0%nat with
                   | [], ConnectFail => UnboundLocalError "response"
                   | _, _ => Exception "Failed to fetch meetings"
                   end),
            None :: map next_page_token ps).
Proof.
  intros fuel w ps Hs Hc Hw Hf. unfold get_meetings. unfold page_at in Hw.
  destruct (w (List.length ps)) as [|r] eqn:Hr.
  - destruct (page_loop_connect_fail ps fuel w 0 None [] None [] Hs Hc Hr Hf)
      as (r' & -> & Hnil & Hcons). simpl.
    destruct ps as [|p ps].
    + simpl in Hr. now rewrite Hr, (Hnil eq_refl).
    + destruct r' as [r'|]; [reflexivity|]. now destruct Hcons.
  - destruct (is_error_status (status_code r)) eqn:He; [|discriminate].
    rewrite (page_loop_http_error ps fuel w 0 None [] None [] r Hs Hc Hr He Hf).
    simpl. destruct ps as [|p ps]; [|reflexivity].
    simpl in Hr. now rewrite Hr.
Qed.

Lemma get_meetings_failure_discards_pages_witness :
  get_meetings 4 (Sample.lost_after_first [Sample.standup; Sample.review])
  = Some (Raise (Exception "Failed to fetch meetings"), [None; Some "c1"]).
Proof.
  apply (get_meetings_failure_discards_pages 4
           (Sample.lost_after_first [Sample.standup; Sample.review])
           [{| items := [Sample.standup; Sample.review]; next_page_token := Some "c1" |}]).
  - apply serves_wire_of_pages.
  - reflexivity.
  - reflexivity.
  - simpl. lia.
Defined.

(** X2.  When a request of a participant listing fails after pages that all
    carried a cursor, [get_meeting_participants] returns the empty list, not
    the participants of those pages; only a connection failure of the very
    first request raises ([UnboundLocalError]). *)
Theorem get_meeting_participants_failure_discards_pages :
  forall fuel (w : wire (Page Participant)) ps,
    serves w 0 ps -> forallb has_cursor ps = true ->
    page_at w (List.length ps) = None ->
    (List.length ps < fuel)%nat ->
    get_meeting_participants fuel w
    = Some (match ps, w 0%nat with
            | [], ConnectFail => Raise (UnboundLocalError "response")
            | _, _ => Ok []
            end,
            None :: map next_page_token ps).
Proof.
  intros fuel w ps Hs Hc Hw Hf. unfold get_meeting_participants. unfold page_at in Hw.
  destruct (w (List.length ps)) as [|r] eqn:Hr.
  - destruct (page_loop_connect_fail ps fuel w 0 None [] None [] Hs Hc Hr Hf)
      as (r' & -> & Hnil & Hcons). simpl.
    destruct ps as [|p ps].
    + simpl in Hr. now rewrite Hr, (Hnil eq_refl).
    + destruct r' as [r'|]; [reflexivity|]. now destruct Hcons.
  - destruct (is_error_status (status_code r)) eqn:He; [|discriminate].
    rewrite (page_loop_http_error ps fuel w 0 None [] None [] r Hs Hc Hr He Hf).
    simpl. destruct ps as [|p ps]; [|reflexivity].
    simpl in Hr. now rewrite Hr.
Qed.

Lemma get_meeting_participants_failure_discards_pages_witness :
  get_meeting_participants 4 (Sample.broken_after_first [Sample.alice; Sample.bob])
  = Some (Ok [], [None; Some "c1"]).
Proof.
  apply (get_meeting_participants_failure_discards_pages 4
           (Sample.broken_after_first [Sample.alice; Sample.bob])
           [{| items := [Sample.alice; Sample.bob]; next_page_token := Some "c1" |}]).
  - intros [|[|i]] p H; simpl in H; try discriminate. now injection H as <-.
  - reflexivity.
  - reflexivity.
  - simpl. lia.
Defined.

(** X3.  However a listing ends, its first request carries no
    [next_page_token], every later request carries a non-empty one, and at
    least one request was sent. *)
Theorem listing_requests_carry_cursors :
  (forall fuel (w : wire (Page Meeting)) r sent,
      get_meetings fuel w = Some (r, sent) ->
      exists l, sent = None :: l /\ Forall is_cursor l)
  /\ (forall fuel (w : wire (Page Participant)) r sent,
         get_meeting_participants fuel w = Some (r, sent) ->
         exists l, sent = None :: l /\ Forall is_cursor l).
Proof.
  split; intros fuel w r sent H.
  - unfold get_meetings in H.
    destruct (page_loop fuel w 0 None [] None []) as [[x sent']|] eqn:Hx;
      [|discriminate].
    apply page_loop_sent in Hx as (l & -> & HF).
    exists l. split; [|exact HF]. destruct x; now injection H as _ <-.
  - unfold get_meeting_participants in H.
    destruct (page_loop fuel w 0 None [] None []) as [[x sent']|] eqn:Hx;
      [|discriminate].
    apply page_loop_sent in Hx as (l & -> & HF).
    exists l. split; [|exact HF]. destruct x; now injection H as _ <-.
Qed.

Lemma listing_requests_carry_cursors_witness :
  exists l, [None; Some "c1"] = None :: l /\ Forall is_cursor l.
Proof.
  apply (proj2 listing_requests_carry_cursors 4%nat
           (Sample.broken_after_first [Sample.alice]) (Ok [])).
  reflexivity.
Defined.

(** X5.  A list of meetings that [get_meetings] returns is never partial:
    it is the concatenation, in order, of the items of every page requested,
    all of which carried a cursor but the last. *)
Theorem get_meetings_returns_all_pages :
  forall fuel (w : wire (Page Meeting)) meetings sent,
    get_meetings fuel w = Some (Ok meetings, sent) ->
    exists ps last,
      serves w 0 (ps ++ [last])
      /\ forallb has_cursor ps = true /\ has_cursor last = false
      /\ meetings = List.concat (map items (ps ++ [last]))
      /\ sent = None :: map next_page_token ps.
Proof.
  intros fuel w meetings sent H. unfold get_meetings in H.
  destruct (page_loop fuel w 0 None [] None []) as [[[out|e response] sent']|] eqn:Hx;
    try discriminate.
  - injection H as <- <-. now apply page_loop_completed in Hx.
  - exfalso. revert H. unfold except_RequestException.
    destruct (is_RequestException e); [|discriminate].
    destruct response; discriminate.
Qed.

Lemma get_meetings_returns_all_pages_witness :
  exists ps last,
    serves (Sample.single [Sample.standup; Sample.retro]) 0 (ps ++ [last])
    /\ forallb has_cursor ps = true /\ has_cursor last = false
    /\ [Sample.standup; Sample.retro] = List.concat (map items (ps ++ [last]))
    /\ [None] = None :: map next_page_token ps.
Proof.
  apply (get_meetings_returns_all_pages 3 (Sample.single [Sample.standup; Sample.retro])).
  reflexivity.
Defined.

(** * Further properties of the session and of the identity lookup *)

Section UrlopenFacts.

Context {B : Type}.
Variable m : http_method.
Variable w : wire B.

Lemma urlopen_returns left n r :
  w n = Reply r -> is_retry retries m (status_code r) = false ->
  urlopen retries m w left n = (Ok r, S n).
Proof.
  intros Hw Hr. destruct left; simpl; now rewrite Hw, Hr.
Qed.

Lemma urlopen_retries k : forall left n,
  (k <= left)%nat ->
  (forall i, (i < k)%nat -> retried m (w (n + i)%nat) = true) ->
  urlopen retries m w left n = urlopen retries m w (left - k) (n + k).
Proof.
  induction k as [|k IH]; intros left n Hk Hre.
  - now rewrite Nat.sub_0_r, Nat.add_0_r.
  - destruct left as [|left]; [lia|].
    pose proof (Hre 0%nat ltac:(lia)) as H0. rewrite Nat.add_0_r in H0.
    replace (S left - S k)%nat with (left - k)%nat by lia.
    replace (n + S k)%nat with (S n + k)%nat by lia.
    rewrite <- (IH left (S n)); [|lia|].
    + simpl. unfold retried in H0. destruct (w n) as [|r]; [reflexivity|].
      now rewrite H0.
    + intros i Hi. replace (S n + i)%nat with (n + S i)%nat by lia.
      apply Hre. lia.
Qed.

Lemma urlopen_exhausted left : forall n,
  (forall i, (i <= left)%nat -> retried m (w (n + i)%nat) = true) ->
  exists e, urlopen retries m w left n = (Raise e, S (n + left))
            /\ is_RequestException e = true.
Proof.
  induction left as [|left IH]; intros n Hre.
  - pose proof (Hre 0%nat ltac:(lia)) as H0. rewrite Nat.add_0_r in *.
    simpl. unfold retried in H0. destruct (w n) as [|r].
    + now exists ConnectionError.
    + rewrite H0. now exists RetryError.
  - pose proof (Hre 0%nat ltac:(lia)) as H0. rewrite Nat.add_0_r in H0.
    destruct (IH (S n)) as (e & He & Hreq).
    + intros i Hi. replace (S n + i)%nat with (n + S i)%nat by lia.
      apply Hre. lia.
    + exists e. split; [|exact Hreq].
      replace (S (n + S left)) with (S (S n + left)) by lia. rewrite <- He.
      simpl. unfold retried in H0. destruct (w n) as [|r]; [reflexivity|].
      now rewrite H0.
Qed.

End UrlopenFacts.

Lemma handed_back_not_retried (m : http_method) (status : Z) :
  handed_back retries m status = true -> is_retry retries m status = false.
Proof.
  unfold handed_back. intros H.
  apply andb_prop in H as [H _]. apply andb_prop in H as [_ H].
  now apply negb_true_iff in H.
Qed.

(** X6.  [get_user_id] rides out up to five attempts in a row that fail to
    connect or answer 500, 502, 503 or 504: the outcome is that of the first
    answer the session hands back (a success, or an error other than 413,
    429 and those four), ["Failed to obtain user ID"] when its status is an
    error and the lookup of ["id"] in its body otherwise (a body without
    ["id"] raises [KeyError], which the handler does not catch). *)
Theorem get_user_id_after_retries :
  forall (w : wire json) (k : nat) (r : Response json),
    (k <= 5)%nat ->
    (forall i, (i < k)%nat -> retried GET (w i) = true) ->
    w k = Reply r -> handed_back retries GET (status_code r) = true ->
    get_user_id w
    = (if is_error_status (status_code r)
       then Raise (Exception "Failed to obtain user ID")
       else getitem (body r) "id",
       S k)
    /\ (is_error_status (status_code r) = false ->
        forall kv, body r = JObj kv -> assoc "id" kv = None ->
                   get_user_id w = (Raise (KeyError "id"), S k)).
Proof.
  intros w k r Hk Hre Hw Hr. apply handed_back_not_retried in Hr.
  assert (Hs : session_request GET w = (Ok r, S k)).
  { unfold session_request. simpl total.
    rewrite (urlopen_retries GET w k 5 0 Hk Hre). simpl.
    now apply urlopen_returns. }
  assert (Hg : get_user_id w
               = (if is_error_status (status_code r)
                  then Raise (Exception "Failed to obtain user ID")
                  else getitem (body r) "id", S k)).
  { unfold get_user_id. rewrite Hs. unfold raise_for_status.
    destruct (is_error_status (status_code r)); simpl; [reflexivity|].
    f_equal. unfold getitem. destruct (body r) as [| | | | |kv]; try reflexivity.
    simpl. unfold from_option. now destruct (assoc "id" kv). }
  split; [exact Hg|].
  intros Hok kv Hb Ha. rewrite Hg, Hok. unfold getitem. now rewrite Hb, Ha.
Qed.

Lemma get_user_id_after_retries_witness :
  get_user_id (Sample.flaky JNull (JObj [("name", JStr "me")]))
  = (Raise (KeyError "id"), 3%nat).
Proof.
  apply (proj2 (get_user_id_after_retries
                  (Sample.flaky JNull (JObj [("name", JStr "me")])) 2
                  {| status_code := 200; body := JObj [("name", JStr "me")] |}
                  ltac:(lia)
                  ltac:(intros [|[|i]] Hi; [reflexivity | reflexivity | lia])
                  eq_refl eq_refl)
           eq_refl [("name", JStr "me")] eq_refl eq_refl).
Defined.

(** X7.  When six attempts in a row fail to connect or answer 500, 502,
    503 or 504, the session gives up without a response, and the handler of
    [get_user_id], which logs the response, raises [UnboundLocalError]
    instead of ["Failed to obtain user ID"]. *)
Theorem get_user_id_retries_exhausted :
  forall w : wire json,
    (forall i, (i <= 5)%nat -> retried GET (w i) = true) ->
    get_user_id w = (Raise (UnboundLocalError "response"), 6%nat).
Proof.
  intros w Hre. unfold get_user_id, session_request. simpl total.
  destruct (urlopen_exhausted GET w 5 0 Hre) as (e & -> & He).
  simpl. now rewrite He.
Qed.

Lemma get_user_id_retries_exhausted_witness :
  get_user_id (fun _ => Reply {| status_code := 503; body := JNull |})
  = (Raise (UnboundLocalError "response"), 6%nat).
Proof.
  apply get_user_id_retries_exhausted. intros i _. reflexivity.
Defined.

(** * Further properties of the authenticator *)

Section AuthenticatorFacts.

Variable isoformat : Z -> string.
Variable fromisoformat : string -> option datetime.

#[local] Abbreviation get := (get_access_token isoformat fromisoformat).
#[local] Abbreviation load' := (load_cached_token fromisoformat).
#[local] Abbreviation save' := (save_token_to_cache isoformat).

Lemma getitem_not_RequestException d k e :
  getitem d k = Raise e -> is_RequestException e = false.
Proof.
  unfold getitem, from_option. destruct d as [| | | | |kv]; try (now intros [= <-]).
  destruct (assoc k kv); [discriminate | now intros [= <-]].
Qed.

Lemma seconds_of_not_RequestException v e :
  seconds_of v = Raise e -> is_RequestException e = false.
Proof.
  destruct v; simpl; try discriminate; now intros [= <-].
Qed.

(** What the exchange of [get_access_token] does with a response [r] that
    came back with a status that is no error. *)
Lemma get_access_token_exchange now now_save w f v r k :
  load' now f = Ok v -> truthy v = false ->
  session_request POST w = (Ok r, k) ->
  is_error_status (status_code r) = false ->
  get now now_save w f
  = match (access_token <- getitem (body r) "access_token" ;;
           expires_in <- getitem (body r) "expires_in" ;;
           seconds <- seconds_of expires_in ;;
           Ok (access_token, seconds)) with
    | Ok (tok, ttl) =>
        match save' now_save tok ttl f with
        | Ok saved => (Ok tok, saved, [HttpCall POST k; CacheWrite saved])
        | Raise _ => (Raise OverflowError, f, [HttpCall POST k])
        end
    | Raise e => (Raise e, f, [HttpCall POST k])
    end.
Proof.
  intros Hl Hv Hs Hst. unfold get_access_token.
  rewrite Hl, Hv, Hs. unfold raise_for_status. rewrite Hst. simpl.
  destruct (getitem (body r) "access_token") as [tok|e] eqn:Ha; simpl.
  - destruct (getitem (body r) "expires_in") as [x|e] eqn:He; simpl.
    + destruct (seconds_of x) as [ttl|e] eqn:Hx; simpl.
      * destruct (save' now_save tok ttl f) as [saved|e] eqn:Hsave; simpl;
          [reflexivity|].
        now rewrite (save_token_to_cache_raises isoformat now_save tok ttl f e Hsave).
      * now rewrite (seconds_of_not_RequestException x e Hx).
    + now rewrite (getitem_not_RequestException _ _ e He).
  - now rewrite (getitem_not_RequestException _ _ e Ha).
Qed.

(** The handlers of [get_access_token] never return. *)
Lemma get_access_token_effect_cases now now_save w f r f' t :
  get now now_save w f = (r, f', t) ->
  (t = [] /\ f' = f)
  \/ (exists k e, t = [HttpCall POST k] /\ f' = f /\ r = Raise e)
  \/ (exists k tok ttl,
         t = [HttpCall POST k; CacheWrite f'] /\ r = Ok tok
         /\ save' now_save tok ttl f = Ok f').
Proof.
  unfold get_access_token.
  destruct (load' now f) as [v|e]; [|intros [= <- <- <-]; now left].
  destruct (truthy v); [intros [= <- <- <-]; now left|].
  destruct (session_request POST w) as [[resp|e] k];
    unfold except_RequestException, raise_for_status, log_response; simpl.
  - destruct (is_error_status (status_code resp)); simpl;
      [intros [= <- <- <-]; right; left; eauto|].
    destruct (getitem (body resp) "access_token") as [tok|e1]; simpl.
    + destruct (getitem (body resp) "expires_in") as [x|e2]; simpl.
      * destruct (seconds_of x) as [ttl|e3]; simpl.
        -- destruct (save' now_save tok ttl f) as [saved|e4] eqn:Hsave; simpl.
           ++ intros [= <- <- <-]. right; right. now exists k, tok, ttl.
           ++ destruct (is_RequestException e4); intros [= <- <- <-];
                right; left; eauto.
        -- destruct (is_RequestException e3); intros [= <- <- <-];
             right; left; eauto.
      * destruct (is_RequestException e2); intros [= <- <- <-];
          right; left; eauto.
    + destruct (is_RequestException e1); intros [= <- <- <-];
        right; left; eauto.
  - destruct (is_RequestException e); intros [= <- <- <-]; right; left; eauto.
Qed.

End AuthenticatorFacts.

(** X9.  [get_access_token] touches the cache file only together with a
    successful exchange: either it performs nothing, or one call to the token
    endpoint that ends in an exception and leaves the file as it was, or one
    call followed by one write of the very token it returns. *)
Theorem get_access_token_writes_only_what_it_returns :
  forall isoformat fromisoformat now now_save (w : wire json) f r f' t,
    get_access_token isoformat fromisoformat now now_save w f = (r, f', t) ->
    (t = [] /\ f' = f)
    \/ (exists k e, t = [HttpCall POST k] /\ f' = f /\ r = Raise e)
    \/ (exists k tok ttl,
           t = [HttpCall POST k; CacheWrite f'] /\ r = Ok tok
           /\ save_token_to_cache isoformat now_save tok ttl f = Ok f').
Proof.
  intros isoformat fromisoformat now now_save w f r f' t.
  apply get_access_token_effect_cases.
Qed.

Lemma get_access_token_writes_only_what_it_returns_witness :
  get_access_token Iso8601.isoformat Iso8601.fromisoformat 0 0
    (fun _ => ConnectFail) Absent
  = (Raise (UnboundLocalError "response"), Absent, [HttpCall POST 6])
  /\ exists k e,
      [HttpCall POST 6] = [HttpCall POST k] /\ Absent = Absent
      /\ Raise (UnboundLocalError "response") = @Raise json e.
Proof.
  split; [reflexivity|].
  destruct (get_access_token_writes_only_what_it_returns
              Iso8601.isoformat Iso8601.fromisoformat 0 0 (fun _ => ConnectFail)
              Absent (Raise (UnboundLocalError "response")) Absent
              [HttpCall POST 6] eq_refl) as [[H _]|[H|(k & tok & ttl & H & _)]];
    [discriminate | exact H | discriminate].
Defined.

(** X10.  After a cache miss, an answer of the token endpoint with an
    error status gives ["Failed to obtain access token"], and an answer
    without ["access_token"] or without ["expires_in"] raises the [KeyError]
    itself, which the handler does not catch; in both cases one call was
    made and the cache file is left as it was. *)
Theorem get_access_token_bad_answer :
  forall isoformat fromisoformat now now_save (w : wire json) f v r k,
    load_cached_token fromisoformat now f = Ok v -> truthy v = false ->
    session_request POST w = (Ok r, k) ->
    let get := get_access_token isoformat fromisoformat now now_save w f in
    (is_error_status (status_code r) = true ->
     get = (Raise (Exception "Failed to obtain access token"), f, [HttpCall POST k]))
    /\ (is_error_status (status_code r) = false ->
        forall kv, body r = JObj kv ->
          (assoc "access_token" kv = None ->
           get = (Raise (KeyError "access_token"), f, [HttpCall POST k]))
          /\ (assoc "access_token" kv <> None -> assoc "expires_in" kv = None ->
              get = (Raise (KeyError "expires_in"), f, [HttpCall POST k]))).
Proof.
  intros isoformat fromisoformat now now_save w f v r k Hl Hv Hs get. split.
  - intros Hst. unfold get, get_access_token.
    rewrite Hl, Hv, Hs. unfold raise_for_status. now rewrite Hst.
  - intros Hst kv Hb. unfold get.
    rewrite (get_access_token_exchange isoformat fromisoformat
               now now_save w f v r k Hl Hv Hs Hst).
    rewrite Hb. unfold getitem. split.
    + intros Ha. now rewrite Ha.
    + intros Ha He. destruct (assoc "access_token" kv); [|now contradiction Ha].
      simpl. now rewrite He.
Qed.

Lemma get_access_token_bad_answer_witness :
  get_access_token Iso8601.isoformat Iso8601.fromisoformat 0 0
    (Sample.always (JObj [("access_token", JStr "fresh")])) Absent
  = (Raise (KeyError "expires_in"), Absent, [HttpCall POST 1]).
Proof.
  destruct (get_access_token_bad_answer Iso8601.isoformat Iso8601.fromisoformat 0 0
              (Sample.always (JObj [("access_token", JStr "fresh")])) Absent JNull
              {| status_code := 200; body := JObj [("access_token", JStr "fresh")] |}
              1%nat eq_refl eq_refl eq_refl) as [_ H].
  apply (H eq_refl [("access_token", JStr "fresh")] eq_refl); [discriminate | reflexivity].
Defined.

(** X11.  A token that [save_token_to_cache] has written, with an expiry
    that [fromisoformat] reads back, is returned by [load()] at every time
    strictly before the expiry and at no time from the expiry on, however
    much later and whatever the file held before. *)
Theorem saved_token_is_valid_until_expiry :
  forall isoformat fromisoformat now later tok ttl f saved,
    save_token_to_cache isoformat now tok ttl f = Ok saved ->
    reads_back isoformat fromisoformat (now + ttl * 1000000) ->
    tok <> JNull ->
    (load_cached_token fromisoformat later saved = Ok tok
     <-> later < now + ttl * 1000000)
    /\ (load_cached_token fromisoformat later saved = Ok JNull
        <-> now + ttl * 1000000 <= later).
Proof.
  intros isoformat fromisoformat now later tok ttl f saved Hsave Hrt Htok.
  rewrite (load_after_save isoformat fromisoformat now later tok ttl f saved Hsave Hrt).
  destruct (Z.ltb_spec later (now + ttl * 1000000)); split; split;
    try reflexivity; try lia; try congruence.
Qed.

Lemma saved_token_is_valid_until_expiry_witness :
  load_cached_token Iso8601.fromisoformat (1704103200000000 + 3598999999)
    (Parsed (JObj [("access_token", JStr "tok");
                   ("expiration", JStr "2024-01-01T10:59:59")]))
  = Ok (JStr "tok").
Proof.
  apply (saved_token_is_valid_until_expiry Iso8601.isoformat Iso8601.fromisoformat
           1704103200000000 (1704103200000000 + 3598999999) (JStr "tok") 3599 Invalid);
    [vm_compute; reflexivity | vm_compute; reflexivity | discriminate | lia].
Defined.

(** * Further properties of the summarizer *)







Section ReportFacts.

Variable parse : string -> option datetime.
Variable strftime : datetime -> string.
Variable listing : Z -> wire (Page Participant).

#[local] Abbreviation loop := (meeting_loop parse strftime listing).



(** The accumulator is a prefix of what the loop returns. *)
Lemma meeting_loop_acc fuel todo : forall acc,
  loop fuel todo acc
  = match loop fuel todo [] with
    | Some (Ok out) => Some (Ok (acc ++ out))
    | other => other
    end.
Proof.
  induction todo as [|m todo IH]; intros acc; simpl.
  - now rewrite app_nil_r.
  - destruct (summarize_meeting parse strftime listing fuel m) as [[s|e]|];
      try reflexivity.
    rewrite (IH (acc ++ [s])), (IH [s]).
    destruct (loop fuel todo []) as [[out|e]|]; try reflexivity.
    now rewrite <- app_assoc.
Qed.

Lemma meeting_loop_app fuel l1 : forall l2 acc,
  loop fuel (l1 ++ l2) acc
  = match loop fuel l1 acc with
    | Some (Ok out) => loop fuel l2 out
    | other => other
    end.
Proof.
  induction l1 as [|m l1 IH]; intros l2 acc; simpl; [reflexivity|].
  destruct (summarize_meeting parse strftime listing fuel m) as [[s|e]|];
    try reflexivity.
  apply IH.
Qed.


End ReportFacts.



(** X15.  Summarizing is compositional: when two lists of meetings are
    each summarized to a report, their concatenation is summarized to the
    concatenation of the two reports. *)
Theorem summarize_meetings_app :
  forall parse strftime listing fuel l1 l2 r1 r2,
    summarize_meetings parse strftime listing fuel l1 = Some (Ok r1) ->
    summarize_meetings parse strftime listing fuel l2 = Some (Ok r2) ->
    summarize_meetings parse strftime listing fuel (l1 ++ l2) = Some (Ok (r1 ++ r2)).
Proof.
  intros parse strftime listing fuel l1 l2 r1 r2 H1 H2.
  unfold summarize_meetings in *.
  now rewrite meeting_loop_app, H1, meeting_loop_acc, H2.
Qed.

Lemma summarize_meetings_app_witness :
  exists r1 r2,
    summarize_meetings Iso8601.parse Iso8601.strftime Sample.healthy 3
      ([Sample.standup] ++ [Sample.review; Sample.retro]) = Some (Ok (r1 ++ r2))
    /\ List.length r1 = 1%nat /\ List.length r2 = 2%nat.
Proof.
  eexists. eexists. split.
  - apply (summarize_meetings_app Iso8601.parse Iso8601.strftime Sample.healthy 3
             [Sample.standup] [Sample.review; Sample.retro]);
      vm_compute; reflexivity.
  - split; reflexivity.
Defined.

(** * Further properties of the program *)

(** X17.  With an unexpired, non-empty token in the cache, [main] sends
    nothing to the token endpoint and leaves the cache file as it is: its
    outcome is the same whatever that endpoint would answer. *)
Theorem main_with_cached_token_skips_the_exchange :
  forall isoformat fromisoformat parse strftime fuel now now_save srv f tok,
    load_cached_token fromisoformat now f = Ok tok -> truthy tok = true ->
    (forall other : wire json,
        main isoformat fromisoformat parse strftime fuel now now_save srv f
        = main isoformat fromisoformat parse strftime fuel now now_save
            {| oauth_token := other; users_me := users_me srv;
               user_meetings := user_meetings srv;
               meeting_participants := meeting_participants srv |} f)
    /\ (forall out f',
           main isoformat fromisoformat parse strftime fuel now now_save srv f
           = Some (out, f') -> f' = f).
Proof.
  intros isoformat fromisoformat parse strftime fuel now now_save srv f tok Hl Ht.
  split.
  - intros other. unfold main. simpl.
    now rewrite !(get_access_token_hit isoformat fromisoformat now now_save _ f tok Hl Ht).
  - intros out f'. unfold main.
    rewrite (get_access_token_hit isoformat fromisoformat now now_save _ f tok Hl Ht).
    destruct (get_user_id (users_me srv)) as [[user_id|e] k]; [|now intros [= _ <-]].
    destruct (get_meetings fuel (user_meetings srv user_id)) as [[[ms|e] sent]|];
      try discriminate; [|now intros [= _ <-]].
    destruct (summarize_meetings parse strftime (meeting_participants srv) fuel ms)
      as [[rep|e]|]; try discriminate; now intros [= _ <-].
Qed.

Lemma main_with_cached_token_skips_the_exchange_witness :
  let cached :=
    Parsed (JObj [("access_token", JStr "tok");
                  ("expiration", JStr "2024-01-01T10:59:59")]) in
  main Iso8601.isoformat Iso8601.fromisoformat Iso8601.parse Iso8601.strftime
    3 1704103260000000 1704103260000000 (Sample.provider_with Sample.healthy) cached
  = main Iso8601.isoformat Iso8601.fromisoformat Iso8601.parse Iso8601.strftime
      3 1704103260000000 1704103260000000
      {| oauth_token := fun _ => ConnectFail;
         users_me := users_me (Sample.provider_with Sample.healthy);
         user_meetings := user_meetings (Sample.provider_with Sample.healthy);
         meeting_participants := meeting_participants (Sample.provider_with Sample.healthy) |}
      cached.
Proof.
  intros cached.
  assert (Hl : load_cached_token Iso8601.fromisoformat 1704103260000000 cached
               = Ok (JStr "tok")) by (vm_compute; reflexivity).
  exact (proj1 (main_with_cached_token_skips_the_exchange
                  Iso8601.isoformat Iso8601.fromisoformat Iso8601.parse Iso8601.strftime
                  3 1704103260000000 1704103260000000
                  (Sample.provider_with Sample.healthy) cached (JStr "tok") Hl eq_refl)
           (fun _ => ConnectFail)).
Defined.


